(** * Request orchestration of the X-ray analysis client (lib/gemini.ts)

    A shallow embedding of [retryWithBackoff], [analyzeXrayImage],
    [blobToBase64] and [checkApiConnection], and of the handlers of the
    view that call them (App.tsx).  Asynchronous code is sequential here: every [await]
    is a bind of a state-and-exception monad over the host environment
    (remote model, network, file reader, random source) and a trace of
    the observable events (attempts, timers, console, host calls).

    JavaScript numbers are embedded as integers ([Z]) where the source
    counts (the retry counter, the attempt budget) and as binary64
    numbers ([Number]) where it computes with them: the wait time is
    computed with the rounding of every operation, and can be infinite
    or NaN.  The same expression on the primitive floats of the
    processor serves as a cross-check of the rounding. *)

From Stdlib Require Import ZArith QArith Qround Qpower String Ascii List Bool.
From Stdlib Require Import Lia Lqa.
From Stdlib Require Import Sorted Floats FunInd Recdef.
Import ListNotations.

Close Scope Q_scope.
Set Implicit Arguments.

(** ** JavaScript values that can be thrown *)

(** An instance of [Error]: [name] is the constructor name (a subclass
    keeps its own), [message] is the text given to the constructor. *)
Record JsError := { name : string; message : string }.

(** [new Error(msg)] *)
Definition new_Error (msg : string) : JsError :=
  {| name := "Error"; message := msg |}.

(** Anything JavaScript can [throw]: an [Error] object, for which
    [instanceof Error] holds, or a value for which it does not (a
    string, a number, a plain object), kept by its printed form. *)
Inductive JsValue :=
| ErrorObject (e : JsError)
| NonError (repr : string).

(** The outcome of evaluating an expression or awaiting a promise. *)
Inductive Completion (A : Type) :=
| Normal (a : A)
| Throw (v : JsValue).
Arguments Normal {A} a.
Arguments Throw {A} v.

(** Whether a completion is a throw. *)
Definition throws {A} (c : Completion A) : bool :=
  match c with Normal _ => false | Throw _ => true end.

(** ** Strings *)

(** [s.includes(needle)] *)
Fixpoint includes (needle s : string) : bool :=
  String.prefix needle s ||
  match s with
  | EmptyString => false
  | String _ s' => includes needle s'
  end.

(** [s.split(sep)] for a one-character separator: never empty, the
    segments between consecutive separators in order. *)
Fixpoint js_split (sep : ascii) (s : string) : list string :=
  match s with
  | EmptyString => [EmptyString]
  | String c s' =>
      if Ascii.eqb c sep then EmptyString :: js_split sep s'
      else match js_split sep s' with
           | [] => [String c EmptyString]
           | seg :: segs => String c seg :: segs
           end
  end.

(** No occurrence of [sep] in [s]. *)
Fixpoint free_of (sep : ascii) (s : string) : bool :=
  match s with
  | EmptyString => true
  | String c s' => negb (Ascii.eqb c sep) && free_of sep s'
  end.

(** [!s] for a string or [undefined]: only the empty string and
    [undefined] are falsy. *)
Definition falsy (s : option string) : bool :=
  match s with
  | None => true
  | Some EmptyString => true
  | Some _ => false
  end.

(** ** Classification of failures (lines 35-36 and 115) *)

(** [error.message.includes('503') || error.message.includes('overloaded')] *)
Definition message_is_transient (msg : string) : bool :=
  includes "503" msg || includes "overloaded" msg.

(** [error instanceof Error && (...)]: the condition under which the
    retrier waits and tries again. *)
Definition is_transient (error : JsValue) : bool :=
  match error with
  | ErrorObject e => message_is_transient (message e)
  | NonError _ => false
  end.

(** ** Data of the requests *)

(** A part of the content array given to [model.generateContent]. *)
Inductive Part :=
| TextPart (text : string)
| InlineDataPart (mimeType data : string).

(** A [Blob]: its content type and its bytes. *)
Record Blob := { type : string; bytes : list Byte.byte }.

(** The response of [fetch]: the HTTP status and what [response.blob()]
    settles to. *)
Record Response := { status : Z; blob : Completion Blob }.

(** [response.ok]: the status is in the range 200-299. *)
Definition ok (r : Response) : bool :=
  (200 <=? status r)%Z && (status r <=? 299)%Z.

(** The object behind [result.response]: [text] is what [text()] does. *)
Record GenerateContentResponse := { text : Completion string }.

(** ** Numbers *)

(** A value of the Number type is a binary64 number: a rational, one of
    the two infinities, or NaN.  The sign of zero is not kept; nothing
    in the module tells the two zeros apart. *)
Inductive Number :=
| Finite (q : Q)
| Infinite (negative : bool)
| NaN.

Definition Number_opp (x : Number) : Number :=
  match x with
  | Finite q => Finite (- q)%Q
  | Infinite s => Infinite (negb s)
  | NaN => NaN
  end.

(** The integer nearest to [N / D], for [D] positive; a tie goes to the
    even one. *)
Definition round_half_even (N D : Z) : Z :=
  let q := (N / D)%Z in
  match (2 * (N mod D) ?= D)%Z with
  | Lt => q
  | Gt => (q + 1)%Z
  | Eq => if Z.even q then q else (q + 1)%Z
  end.

(** The exponent [e] with [2^e <= n / d < 2^(e+1)], for [n] and [d]
    positive. *)
Definition binade (n d : Z) : Z :=
  let k := (Z.log2 n - Z.log2 d)%Z in
  let below := if (0 <=? k)%Z then (n <? 2 ^ k * d)%Z
               else (n * 2 ^ (- k) <? d)%Z in
  if below then (k - 1)%Z else k.

(** [m * 2^g] as a fraction in lowest terms. *)
Definition scaled (m g : Z) : Q :=
  if (0 <=? g)%Z then inject_Z (m * 2 ^ g)
  else Qred (m # Z.to_pos (2 ^ (- g))).

(** The binary64 number nearest to [n / d], for [n] and [d] positive:
    a multiple of [2^g], where [g] leaves 53 bits to the significand and
    is at least -1074, the exponent of the subnormal numbers; a result
    of [2^1024] or more is the positive infinity. *)
Definition round_positive (n d : Z) : Number :=
  let g := Z.max (binade n d - 52) (-1074) in
  let m := if (0 <=? g)%Z then round_half_even n (d * 2 ^ g)
           else round_half_even (n * 2 ^ (- g)) d in
  if (2 ^ 1024 <=? m * 2 ^ g)%Z then Infinite false
  else Finite (scaled m g).

(** Rounding of an exact result to the nearest binary64 number, ties to
    the even significand, as every arithmetic operation does. *)
Definition round64 (x : Q) : Number :=
  match Qnum x with
  | Z0 => Finite 0%Q
  | Zpos n => round_positive (Zpos n) (Zpos (Qden x))
  | Zneg n => Number_opp (round_positive (Zpos n) (Zpos (Qden x)))
  end.

(** [x + y] *)
Definition Number_add (x y : Number) : Number :=
  match x, y with
  | NaN, _ | _, NaN => NaN
  | Infinite s, Infinite t => if Bool.eqb s t then Infinite s else NaN
  | Infinite s, Finite _ | Finite _, Infinite s => Infinite s
  | Finite a, Finite b => round64 (a + b)%Q
  end.

(** [x * y] *)
Definition Number_mul (x y : Number) : Number :=
  match x, y with
  | NaN, _ | _, NaN => NaN
  | Infinite s, Infinite t => Infinite (xorb s t)
  | Infinite s, Finite a | Finite a, Infinite s =>
      match (a ?= 0)%Q with
      | Eq => NaN
      | Lt => Infinite (negb s)
      | Gt => Infinite s
      end
  | Finite a, Finite b => round64 (a * b)%Q
  end.

(** ** Observable events *)

(** What a host-level operation does to the outside world. *)
Inductive HostEvent :=
| GenerateContent (parts : list Part)
| Fetch (url : string)
| ReadAsDataURL (b : Blob).

(** The trace of one run.  [Attempt] marks each invocation of the
    retried operation; [ConsoleLog] keeps the three holes of the
    template on line 38; [Delay] is [await delay(ms)]. *)
Inductive Event :=
| Attempt
| ConsoleLog (rounded : Number) (attempt : Z) (maxRetries : Z)
| Delay (ms : Number)
| ConsoleError (v : JsValue)
| Host (h : HostEvent).

(** Number of invocations of the retried operation. *)
Fixpoint attempts (t : list Event) : nat :=
  match t with
  | [] => 0
  | Attempt :: t' => S (attempts t')
  | _ :: t' => attempts t'
  end.

(** The timer waits, in order. *)
Fixpoint delays (t : list Event) : list Number :=
  match t with
  | [] => []
  | Delay ms :: t' => ms :: delays t'
  | _ :: t' => delays t'
  end.

(** Number of invocations of the remote model. *)
Fixpoint model_calls (t : list Event) : nat :=
  match t with
  | [] => 0
  | Host (GenerateContent _) :: t' => S (model_calls t')
  | _ :: t' => model_calls t'
  end.

(** The content arrays the remote model was invoked with, in order. *)
Fixpoint model_requests (t : list Event) : list (list Part) :=
  match t with
  | [] => []
  | Host (GenerateContent parts) :: t' => parts :: model_requests t'
  | _ :: t' => model_requests t'
  end.

(** The URLs fetched, in order. *)
Fixpoint fetched (t : list Event) : list string :=
  match t with
  | [] => []
  | Host (Fetch url) :: t' => url :: fetched t'
  | _ :: t' => fetched t'
  end.

(** ** Messages *)

Definition RetriesExhausted_message : string :=
  "Maximum retries reached. The service is currently unavailable. Please try again later.".

Definition ServiceUnavailable_message : string :=
  "The AI service is temporarily unavailable. We tried multiple times but the service is experiencing high load. Please try again in a few minutes.".

Definition Unexpected_message : string :=
  "An unexpected error occurred while analyzing the image".

Definition FetchError_message : string := "Failed to fetch image".

Definition EmptyResponse_message : string := "No response from Gemini API".

Definition ReadError_message : string := "Failed to read image file".

Definition ConvertError_message : string := "Failed to convert image to base64".

(** ** The wait time (line 37) *)

(** [Math.pow(2, retries)] for the integer values of the counter: the
    power itself where it is a binary64 number, the infinity from
    [2^1024] on. *)
Definition Math_pow2 (retries : Z) : Number := round64 ((2 # 1) ^ retries)%Q.

(** [initialDelay * Math.pow(2, retries) + Math.random() * 1000], each
    of the three operations rounding its result.  [initialDelay] and
    [random] are the rationals the two doubles stand for. *)
Definition waitTime (initialDelay : Q) (retries : Z) (random : Q) : Number :=
  Number_add (Number_mul (Finite initialDelay) (Math_pow2 retries))
             (Number_mul (Finite random) (Finite 1000%Q)).

(** [Math.round(x)]: the nearest integer, halves upwards. *)
Definition Math_round (x : Number) : Number :=
  match x with
  | Finite q => Finite (inject_Z (Qfloor (q + (1 # 2))%Q))
  | _ => x
  end.

(** Line 37 on the primitive floats, which are the binary64 numbers of
    the processor, and the [Number] a float stands for. *)
Definition Math_pow2_binary64 (retries : nat) : float :=
  Nat.iter retries (fun x => x * 2)%float 1%float.

Definition waitTime_binary64 (initialDelay : float) (retries : nat)
  (random : float) : float :=
  (initialDelay * Math_pow2_binary64 retries + random * 1000)%float.

Definition float_Number (f : float) : Number :=
  match Prim2SF f with
  | S754_zero _ => Finite 0%Q
  | S754_infinity s => Infinite s
  | S754_nan => NaN
  | S754_finite s m e =>
      let q := scaled (Zpos m) e in
      Finite (if s then (- q)%Q else q)
  end.

(** The rational a finite float stands for. *)
Definition float_Q (f : float) : Q :=
  match float_Number f with
  | Finite q => q
  | _ => 0%Q
  end.

(** ** The monad of asynchronous code *)

Section Orchestration.

(** The state of everything outside the module: the remote service, the
    network, the file reader, the random source. *)
Variable E : Type.

(** [Math.random()] *)
Variable Math_random : E -> Q * E.

(** [model.generateContent(parts)] followed by [await result.response]:
    throws, or gives the response object ([None] when it is falsy). *)
Variable model_generateContent :
  list Part -> E -> Completion (option GenerateContentResponse) * E.

(** [fetch(url)] *)
Variable fetch : string -> E -> Completion Response * E.

(** [reader.readAsDataURL(blob)] up to the [loadend] event:
    [reader.result], which is [null] ([None]) after a read error. *)
Variable FileReader_readAsDataURL : Blob -> E -> option string * E.

Record World := { env : E; trace : list Event }.

(** A computation of the module: it may change the environment, extend
    the trace, and return or throw. *)
Definition M (A : Type) : Type := World -> Completion A * World.

(** An operation of the host: it sees the environment only and reports
    the host events it caused. *)
Definition Op (A : Type) : Type := E -> Completion A * list HostEvent * E.

Definition ret {A} (a : A) : M A := fun w => (Normal a, w).

Definition throw {A} (v : JsValue) : M A := fun w => (Throw v, w).

Definition bind {A B} (m : M A) (k : A -> M B) : M B :=
  fun w =>
    match m w with
    | (Normal a, w') => k a w'
    | (Throw v, w') => (Throw v, w')
    end.

(** [try { body } catch (error) { handler }] *)
Definition try_catch {A} (body : M A) (handler : JsValue -> M A) : M A :=
  fun w =>
    match body w with
    | (Normal a, w') => (Normal a, w')
    | (Throw v, w') => handler v w'
    end.

Definition emit (ev : Event) : M unit :=
  fun w => (Normal tt, {| env := env w; trace := trace w ++ [ev] |}).

(** Running a host operation from the module. *)
Definition perform {A} (op : Op A) : M A :=
  fun w =>
    let '(r, evs, e') := op (env w) in
    (r, {| env := e'; trace := trace w ++ map Host evs |}).

Notation "x <- m ;; k" := (bind m (fun x => k))
  (at level 61, m at next level, right associativity).
Notation "m ;;; k" := (bind m (fun _ => k))
  (at level 61, right associativity).

(** [Math.random()] as a computation. *)
Definition random : M Q :=
  fun w =>
    let '(r, e') := Math_random (env w) in
    (Normal r, {| env := e'; trace := trace w |}).

(** [await delay(ms)] *)
Definition delay (ms : Number) : M unit := emit (Delay ms).

(** ** The Backoff Retrier (lines 21-49) *)

Section Retrier.

(** The operation and the policy.  The attempt budget is an integer,
    as the retry policy of the specification has it. *)
Variable T : Type.
Variable operation : Op T.
Variable maxRetries : Z.
Variable initialDelay : Q.

(** [await operation()] inside the loop. *)
Definition attempt : M T := emit Attempt ;;; perform operation.

(** Lines 37-39: draw the jitter, log, wait. *)
Definition backoff (retries : Z) : M unit :=
  r <- random ;;
  let wait := waitTime initialDelay retries r in
  emit (ConsoleLog (Math_round wait) (retries + 1) maxRetries) ;;;
  delay wait.

(** Line 33 *)
Definition as_Error (error : JsValue) : JsError :=
  match error with
  | ErrorObject e => e
  | NonError _ => new_Error "Unknown error"
  end.

(** The [while] loop with its two variables.  An iteration either
    leaves the function or increments [retries], so
    [maxRetries - retries] decreases. *)
Function retry_loop (retries : Z) (lastError : option JsError) (w : World)
  {measure (fun r => Z.to_nat (maxRetries - r)) retries}
  : Completion T * World :=
  if (retries <? maxRetries)%Z then
    match attempt w with
    | (Normal v, w1) => (Normal v, w1)
    | (Throw error, w1) =>
        let lastError := Some (as_Error error) in
        if is_transient error then
          match backoff retries w1 with
          | (Normal _, w2) => retry_loop (retries + 1)%Z lastError w2
          | (Throw v, w2) => (Throw v, w2)
          end
        else (Throw error, w1)
    end
  else (Throw (ErrorObject (new_Error RetriesExhausted_message)), w).
Proof.
  intros retries lastError w Hguard. intros.
  apply Z.ltb_lt in Hguard. lia.
Defined.

Definition retryWithBackoff : M T := retry_loop 0 None.

(** [transient_failures n retries w w']: from the world [w] and the
    counter value [retries], the next [n] invocations of the operation
    each throw an [Error] classified as transient, each followed by the
    backoff of the loop; [w'] is the world after the last backoff. *)
Inductive transient_failures : nat -> Z -> World -> World -> Prop :=
| transient_none : forall retries w, transient_failures 0 retries w w
| transient_again : forall n retries w e w1 w2 w3,
    attempt w = (Throw (ErrorObject e), w1) ->
    message_is_transient (message e) = true ->
    backoff retries w1 = (Normal tt, w2) ->
    transient_failures n (retries + 1) w2 w3 ->
    transient_failures (S n) retries w w3.

End Retrier.

(** The defaults of the signature on lines 23-24. *)
Definition default_maxRetries : Z := 5.
Definition default_initialDelay : Q := 2000%Q.

(** ** The Binary Encoder (lines 125-140) *)

(** The body of [reader.onloadend] when [reader.result] is a string:
    the second element of the split, rejected when it is falsy
    ([undefined] or empty). *)
Definition onloadend (base64String : string) : Completion string :=
  let base64WithoutPrefix := nth_error (js_split "," base64String) 1 in
  if falsy base64WithoutPrefix
  then Throw (ErrorObject (new_Error ConvertError_message))
  else match base64WithoutPrefix with
       | Some payload => Normal payload
       | None => Throw (ErrorObject (new_Error ConvertError_message))
       end.

(** How the promise settles.  After a read error the [error] event
    comes first and rejects; the [loadend] handler that follows cannot
    settle the promise a second time. *)
Definition settle (result : option string) : Completion string :=
  match result with
  | None => Throw (ErrorObject (new_Error ReadError_message))
  | Some base64String => onloadend base64String
  end.

Definition readAsDataURL (b : Blob) : Op (option string) :=
  fun e =>
    let '(result, e') := FileReader_readAsDataURL b e in
    (Normal result, [ReadAsDataURL b], e').

Definition blobToBase64 (b : Blob) : M string :=
  result <- perform (readAsDataURL b) ;;
  fun w => (settle result, w).

(** ** The Analysis Orchestrator (lines 51-123) *)

(** The template literal of line 59. *)
Definition text_only_instruction (prompt language : string) : string :=
  ("You are a medical professional. " ++ prompt
   ++ " Provide the response in " ++ language ++ " language.")%string.

(** Lines 82-88 *)
Definition languagePrompt (language : string) : string :=
  if String.eqb language "hindi"
  then "Provide the analysis in Hindi language."
  else if String.eqb language "marathi"
  then "Provide the analysis in Marathi language."
  else EmptyString.

(** The template literal of line 93. *)
Definition image_instruction (prompt language : string) : string :=
  ("You are a medical professional analyzing an X-ray image. Please provide a detailed analysis based on the following prompt: "
   ++ prompt ++ ". " ++ languagePrompt language)%string.

(** The content array of lines 91-101. *)
Definition image_request (prompt language : string) (imageBlob : Blob)
  (base64Image : string) : list Part :=
  [ TextPart (image_instruction prompt language);
    InlineDataPart (type imageBlob) base64Image ].

(** The closures [generateContent] of lines 56-69 and 90-109: one call
    of the model, then the response check and [text()]. *)
Definition generateContent (parts : list Part) : Op string :=
  fun e =>
    let '(r, e') := model_generateContent parts e in
    (match r with
     | Throw v => Throw v
     | Normal None => Throw (ErrorObject (new_Error EmptyResponse_message))
     | Normal (Some response_text) => text response_text
     end, [GenerateContent parts], e').

Definition fetch_url (url : string) : Op Response :=
  fun e => let '(r, e') := fetch url e in (r, [Fetch url], e').

(** [await p] for a promise whose outcome is known. *)
Definition await {A} (c : Completion A) : M A := fun w => (c, w).

(** The condition of line 55: [!imageUrl && language !== 'english']. *)
Definition text_only (imageUrl language : string) : bool :=
  String.eqb imageUrl EmptyString && negb (String.eqb language "english").

(** The [catch] block, lines 112-122. *)
Definition normalize (error : JsValue) : M string :=
  emit (ConsoleError error) ;;;
  match error with
  | ErrorObject e =>
      if message_is_transient (message e)
      then throw (ErrorObject (new_Error ServiceUnavailable_message))
      else throw (ErrorObject (new_Error (message e)))
  | NonError _ => throw (ErrorObject (new_Error Unexpected_message))
  end.

(** The [try] block, lines 53-111.  Obtaining the model handle on
    line 53 builds an object and calls nothing; the handle is what
    [model_generateContent] stands for. *)
Definition analyze_body (imageUrl prompt language : string) : M string :=
  if text_only imageUrl language then
    retryWithBackoff
      (generateContent [TextPart (text_only_instruction prompt language)])
      default_maxRetries default_initialDelay
  else
    response <- perform (fetch_url imageUrl) ;;
    if negb (ok response)
    then throw (ErrorObject (new_Error FetchError_message))
    else
      imageBlob <- await (blob response) ;;
      base64Image <- blobToBase64 imageBlob ;;
      retryWithBackoff
        (generateContent (image_request prompt language imageBlob base64Image))
        default_maxRetries default_initialDelay.

Definition analyzeXrayImage (imageUrl prompt language : string) : M string :=
  try_catch (analyze_body imageUrl prompt language) normalize.

End Orchestration.

(** ** A scripted host

    A test double of the environment, for running the module on
    concrete inputs: the state is the list of outcomes the remote model
    is going to give, in order; once the script is over the service
    stays overloaded. *)

Module Scenario.

Definition Env : Type := list (Completion (option GenerateContentResponse)).

Definition overloaded : JsValue :=
  ErrorObject
    {| name := "GoogleGenerativeAIFetchError";
       message := "[503 Service Unavailable] The model is overloaded. Please try again later." |}.

Definition bad_request : JsValue :=
  ErrorObject
    {| name := "GoogleGenerativeAIFetchError";
       message := "[400 Bad Request] API key not valid." |}.

Definition answer (s : string) : Completion (option GenerateContentResponse) :=
  Normal (Some {| text := Normal s |}).

(** Two overloaded answers, then a result. *)
Definition flaky : Env :=
  [Throw overloaded; Throw overloaded; answer "No fracture."].

Definition Math_random (e : Env) : Q * Env := ((1 # 2)%Q, e).

(** The double next to the last below 1, [1 - 2^-52]: the largest
    number of a generator that draws 52 random bits. *)
Definition top_jitter : Q := (4503599627370495 # 4503599627370496)%Q.

Definition Math_random_top (e : Env) : Q * Env := (top_jitter, e).

Definition model_generateContent (parts : list Part) (e : Env)
  : Completion (option GenerateContentResponse) * Env :=
  match e with
  | [] => (Throw overloaded, [])
  | r :: e' => (r, e')
  end.

Definition png : Blob :=
  {| type := "image/png"; bytes := [Byte.x89; Byte.x50; Byte.x4e; Byte.x47] |}.

Definition empty_png : Blob := {| type := "image/png"; bytes := [] |}.

(** Two resources exist; every other URL is answered with 404. *)
Definition fetch (url : string) (e : Env) : Completion Response * Env :=
  if String.eqb url "https://example.org/xray.png"
  then (Normal {| status := 200; blob := Normal png |}, e)
  else if String.eqb url "https://example.org/empty.png"
  then (Normal {| status := 200; blob := Normal empty_png |}, e)
  else (Normal {| status := 404; blob := Normal empty_png |}, e).

(** The data URL of the two blobs above (the four bytes of [png] encode
    to the eight characters below). *)
Definition FileReader_readAsDataURL (b : Blob) (e : Env) : option string * Env :=
  (Some ("data:" ++ type b ++ ";base64,"
         ++ match bytes b with [] => EmptyString | _ => "iVBORw==" end)%string,
   e).

(** The operation retried in the examples: one text request. *)
Definition ping : Op Env string :=
  generateContent model_generateContent [TextPart "ping"].

Definition start (script : Env) : World Env := {| env := script; trace := [] |}.

Definition analyze (imageUrl prompt language : string) : M Env string :=
  analyzeXrayImage Math_random model_generateContent fetch
    FileReader_readAsDataURL imageUrl prompt language.

End Scenario.

(** ** The Connectivity Prober (lines 7-19) *)

Definition ConnectivityError_message : string :=
  "Failed to connect to the Gemini API".

Section Prober.

Variable E : Type.
Variable model_generateContent :
  list Part -> E -> Completion (option GenerateContentResponse) * E.

(** Lines 9-14.  The request is the bare string, which the client
    library sends as a single text part; [!!response] is whether the
    response object is there. *)
Definition probe : Op E bool :=
  fun e =>
    let request := [TextPart "Hello, are you working?"] in
    let '(r, e') := model_generateContent request e in
    (match r with
     | Throw v => Throw v
     | Normal (Some _) => Normal true
     | Normal None => Normal false
     end, [GenerateContent request], e').

(** The [catch] block, lines 15-18: a console line, then a fresh
    [Error] whatever was caught. *)
Definition connection_failed (error : JsValue) : M E bool :=
  bind (emit (ConsoleError error))
       (fun _ => throw (ErrorObject (new_Error ConnectivityError_message))).

Definition checkApiConnection : M E bool :=
  try_catch (perform probe) connection_failed.

End Prober.

(** ** White space of [String.prototype.trim]

    Strings are sequences of code units; the model has the code units
    below 256, among which these are the white space and line
    terminator characters: tab, line feed, vertical tab, form feed,
    carriage return, space and no-break space. *)

Definition isWhiteSpace (c : ascii) : bool :=
  let n := nat_of_ascii c in
  (Nat.leb 9 n && Nat.leb n 13) || Nat.eqb n 32 || Nat.eqb n 160.

Fixpoint trimStart (s : string) : string :=
  match s with
  | EmptyString => EmptyString
  | String c s' => if isWhiteSpace c then trimStart s' else s
  end.

Fixpoint trimEnd (s : string) : string :=
  match s with
  | EmptyString => EmptyString
  | String c s' =>
      match trimEnd s' with
      | EmptyString => if isWhiteSpace c then EmptyString else String c EmptyString
      | rest => String c rest
      end
  end.

(** [s.trim()] *)
Definition trim (s : string) : string := trimEnd (trimStart s).

(** Every character is white space. *)
Fixpoint blank (s : string) : bool :=
  match s with
  | EmptyString => true
  | String c s' => isWhiteSpace c && blank s'
  end.

(** ** The view (App.tsx, lines 6-130)

    The state of the component and its handlers.  A handler is run on
    its own: it reads the state of the render that created it and its
    [set] calls apply in order; the result is the state once the
    handler is over. *)

Module App.

Inductive Language := english | hindi | marathi.

Definition Language_string (l : Language) : string :=
  match l with
  | english => "english"
  | hindi => "hindi"
  | marathi => "marathi"
  end.

Definition Language_eqb (a b : Language) : bool :=
  match a, b with
  | english, english | hindi, hindi | marathi, marathi => true
  | _, _ => false
  end.

(** The three values of [apiStatus]; [failed] is the one spelled
    'error' in the source. *)
Inductive ApiStatus := checking | connected | failed.

(** The [useState] cells of lines 9-17 and the value of the file input
    behind [fileInputRef] ([None] while it is not mounted). *)
Record State := {
  imageUrl : string;
  prompt : string;
  analysis : string;
  isAnalyzing : bool;
  error : string;
  apiStatus : ApiStatus;
  language : Language;
  originalAnalysis : string;
  isTranslating : bool;
  fileInput : option string
}.

Definition setImageUrl (v : string) (s : State) : State :=
  {| imageUrl := v; prompt := prompt s; analysis := analysis s;
     isAnalyzing := isAnalyzing s; error := error s; apiStatus := apiStatus s;
     language := language s; originalAnalysis := originalAnalysis s;
     isTranslating := isTranslating s; fileInput := fileInput s |}.

Definition setPrompt (v : string) (s : State) : State :=
  {| imageUrl := imageUrl s; prompt := v; analysis := analysis s;
     isAnalyzing := isAnalyzing s; error := error s; apiStatus := apiStatus s;
     language := language s; originalAnalysis := originalAnalysis s;
     isTranslating := isTranslating s; fileInput := fileInput s |}.

Definition setAnalysis (v : string) (s : State) : State :=
  {| imageUrl := imageUrl s; prompt := prompt s; analysis := v;
     isAnalyzing := isAnalyzing s; error := error s; apiStatus := apiStatus s;
     language := language s; originalAnalysis := originalAnalysis s;
     isTranslating := isTranslating s; fileInput := fileInput s |}.

Definition setIsAnalyzing (v : bool) (s : State) : State :=
  {| imageUrl := imageUrl s; prompt := prompt s; analysis := analysis s;
     isAnalyzing := v; error := error s; apiStatus := apiStatus s;
     language := language s; originalAnalysis := originalAnalysis s;
     isTranslating := isTranslating s; fileInput := fileInput s |}.

Definition setError (v : string) (s : State) : State :=
  {| imageUrl := imageUrl s; prompt := prompt s; analysis := analysis s;
     isAnalyzing := isAnalyzing s; error := v; apiStatus := apiStatus s;
     language := language s; originalAnalysis := originalAnalysis s;
     isTranslating := isTranslating s; fileInput := fileInput s |}.

Definition setApiStatus (v : ApiStatus) (s : State) : State :=
  {| imageUrl := imageUrl s; prompt := prompt s; analysis := analysis s;
     isAnalyzing := isAnalyzing s; error := error s; apiStatus := v;
     language := language s; originalAnalysis := originalAnalysis s;
     isTranslating := isTranslating s; fileInput := fileInput s |}.

Definition setLanguage (v : Language) (s : State) : State :=
  {| imageUrl := imageUrl s; prompt := prompt s; analysis := analysis s;
     isAnalyzing := isAnalyzing s; error := error s; apiStatus := apiStatus s;
     language := v; originalAnalysis := originalAnalysis s;
     isTranslating := isTranslating s; fileInput := fileInput s |}.

Definition setOriginalAnalysis (v : string) (s : State) : State :=
  {| imageUrl := imageUrl s; prompt := prompt s; analysis := analysis s;
     isAnalyzing := isAnalyzing s; error := error s; apiStatus := apiStatus s;
     language := language s; originalAnalysis := v;
     isTranslating := isTranslating s; fileInput := fileInput s |}.

Definition setIsTranslating (v : bool) (s : State) : State :=
  {| imageUrl := imageUrl s; prompt := prompt s; analysis := analysis s;
     isAnalyzing := isAnalyzing s; error := error s; apiStatus := apiStatus s;
     language := language s; originalAnalysis := originalAnalysis s;
     isTranslating := v; fileInput := fileInput s |}.

(** [fileInputRef.current.value = v], when the input is mounted. *)
Definition setFileInput (v : string) (s : State) : State :=
  {| imageUrl := imageUrl s; prompt := prompt s; analysis := analysis s;
     isAnalyzing := isAnalyzing s; error := error s; apiStatus := apiStatus s;
     language := language s; originalAnalysis := originalAnalysis s;
     isTranslating := isTranslating s;
     fileInput := match fileInput s with Some _ => Some v | None => None end |}.

(** The [set] calls of a handler, first to last. *)
Definition update (sets : list (State -> State)) (s : State) : State :=
  fold_left (fun acc set => set acc) sets s.

Definition greeting : string :=
  "Hello! I am your X-ray Analysis AI. Upload an X-ray image, and I can help analyze it for medical conditions or abnormalities.".

Definition apology : string :=
  "I encountered an error while analyzing the X-ray image. Please try again.".

(** [err instanceof Error ? err.message : fallback] *)
Definition errorMessage (fallback : string) (err : JsValue) : string :=
  match err with
  | ErrorObject e => message e
  | NonError _ => fallback
  end.

Section Handlers.

Variable E : Type.
Variable Math_random : E -> Q * E.
Variable model_generateContent :
  list Part -> E -> Completion (option GenerateContentResponse) * E.
Variable fetch : string -> E -> Completion Response * E.
Variable FileReader_readAsDataURL : Blob -> E -> option string * E.

(** [URL.createObjectURL(file)] *)
Variable URL_createObjectURL : Blob -> E -> string * E.

(** What a handler does: a new state of the component and a new world. *)
Definition Handler : Type := State -> World E -> State * World E.

(** The effect of lines 21-36. *)
Definition checkConnection : Handler :=
  fun s w =>
    let s := update [setApiStatus checking] s in
    match checkApiConnection model_generateContent w with
    | (Normal _, w') =>
        (update [setApiStatus connected; setAnalysis greeting;
                 setOriginalAnalysis greeting] s, w')
    | (Throw _, w') =>
        (update [setApiStatus failed;
                 setError "Failed to connect to the analysis service. Please try again later."]
           s, w')
    end.

(** Lines 44-58; [file] is [event.target.files?.[0]]. *)
Definition handleImageUpload (file : option Blob) : Handler :=
  fun s w =>
    match file with
    | None => (s, w)
    | Some f =>
        if negb (String.prefix "image/" (type f))
        then (update [setError "Please upload a valid image file"] s, w)
        else
          let '(url, e') := URL_createObjectURL f (env w) in
          (update [setImageUrl url; setError EmptyString;
                   setAnalysis "I can see the X-ray image. What would you like me to analyze?";
                   setOriginalAnalysis "I can see the X-ray image. What would you like me to analyze?";
                   setLanguage english] s,
           {| env := e'; trace := trace w |})
    end.

(** Lines 60-69 *)
Definition handleClearImage : Handler :=
  fun s w =>
    (update [setImageUrl EmptyString; setAnalysis EmptyString;
             setOriginalAnalysis EmptyString; setError EmptyString;
             setLanguage english; setFileInput EmptyString] s, w).

(** Lines 71-99.  The call on line 87 leaves the language to its
    default. *)
Definition handleAnalyze : Handler :=
  fun s w =>
    if String.eqb (imageUrl s) EmptyString
    then (update [setError "Please upload an X-ray image first"] s, w)
    else if String.eqb (trim (prompt s)) EmptyString
    then (update [setError "Please enter a prompt"] s, w)
    else
      let s1 := update [setIsAnalyzing true; setError EmptyString;
                        setAnalysis "Analyzing the X-ray image...";
                        setLanguage english] s in
      match analyzeXrayImage Math_random model_generateContent fetch
              FileReader_readAsDataURL (imageUrl s) (prompt s) "english" w with
      | (Normal result, w') =>
          (update [setAnalysis result; setOriginalAnalysis result;
                   setPrompt EmptyString; setIsAnalyzing false] s1, w')
      | (Throw err, w') =>
          (update [setError (errorMessage
                               "An unexpected error occurred. Please try again." err);
                   setAnalysis apology; setOriginalAnalysis apology;
                   setIsAnalyzing false] s1, w')
      end.

(** The template literal of line 113. *)
Definition translation_prompt (targetLanguage : Language) (text : string) : string :=
  ("Translate the following medical analysis to "
   ++ Language_string targetLanguage ++ ": " ++ text)%string.

(** Lines 101-123.  For a string, [!originalAnalysis] and
    [originalAnalysis === ''] are the same test. *)
Definition translateAnalysis (targetLanguage : Language) : Handler :=
  fun s w =>
    if Language_eqb targetLanguage (language s)
       || String.eqb (originalAnalysis s) EmptyString
    then (s, w)
    else
      let s1 := update [setIsTranslating true] s in
      match targetLanguage with
      | english =>
          (update [setAnalysis (originalAnalysis s); setLanguage english;
                   setIsTranslating false] s1, w)
      | _ =>
          match analyzeXrayImage Math_random model_generateContent fetch
                  FileReader_readAsDataURL (imageUrl s)
                  (translation_prompt targetLanguage (originalAnalysis s))
                  (Language_string targetLanguage) w with
          | (Normal translatedResult, w') =>
              (update [setAnalysis translatedResult; setLanguage targetLanguage;
                       setIsTranslating false] s1, w')
          | (Throw err, w') =>
              (update [setError (errorMessage
                                   "An unexpected error occurred during translation." err);
                       setIsTranslating false] s1, w')
          end
      end.

(** Lines 125-130; [key] and [shiftKey] are those of the event.  The
    handler is started and not awaited. *)
Definition handleKeyDown (key : string) (shiftKey : bool) : Handler :=
  fun s w =>
    if String.eqb key "Enter" && negb shiftKey
    then handleAnalyze s w
    else (s, w).

End Handlers.

End App.

(** ** The view on the scripted host *)

Module ViewScenario.

Definition URL_createObjectURL (f : Blob) (e : Scenario.Env) : string * Scenario.Env :=
  ("blob:https://example.org/1f0c"%string, e).

(** The component right after mounting. *)
Definition mounted : App.State :=
  {| App.imageUrl := EmptyString; App.prompt := EmptyString;
     App.analysis := EmptyString; App.isAnalyzing := false;
     App.error := EmptyString; App.apiStatus := App.checking;
     App.language := App.english; App.originalAnalysis := EmptyString;
     App.isTranslating := false; App.fileInput := Some EmptyString |}.

(** An image is loaded and an analysis is on display. *)
Definition analysed : App.State :=
  {| App.imageUrl := "https://example.org/xray.png";
     App.prompt := "Any fracture?";
     App.analysis := "No fracture."; App.isAnalyzing := true;
     App.error := EmptyString; App.apiStatus := App.connected;
     App.language := App.english; App.originalAnalysis := "No fracture.";
     App.isTranslating := false; App.fileInput := Some "xray.png"%string |}.

(** Only the greeting is on display: no image. *)
Definition greeted : App.State :=
  {| App.imageUrl := EmptyString; App.prompt := EmptyString;
     App.analysis := App.greeting; App.isAnalyzing := false;
     App.error := EmptyString; App.apiStatus := App.connected;
     App.language := App.english; App.originalAnalysis := App.greeting;
     App.isTranslating := false; App.fileInput := Some EmptyString |}.

(** A blob whose content type has a parameter with a comma in it. *)
Definition named_png : Blob :=
  {| type := "image/png;name=a,b"; bytes := [Byte.x89] |}.

(** A network on which every fetch is answered by a failing proxy. *)
Definition proxy_down (url : string) (e : Scenario.Env)
  : Completion Response * Scenario.Env :=
  (Throw (ErrorObject {| name := "TypeError";
                         message := "Proxy error: 503 Service Unavailable" |}),
   e).

Definition handleAnalyze : App.Handler Scenario.Env :=
  App.handleAnalyze Scenario.Math_random Scenario.model_generateContent
    Scenario.fetch Scenario.FileReader_readAsDataURL.

Definition translateAnalysis (target : App.Language) : App.Handler Scenario.Env :=
  App.translateAnalysis Scenario.Math_random Scenario.model_generateContent
    Scenario.fetch Scenario.FileReader_readAsDataURL target.

End ViewScenario.

(** The total of a list of waits. *)
Definition total_wait (ds : list Q) : Q := fold_right Qplus 0%Q ds.

(** * Properties *)

(** ** Traces *)

Lemma attempts_app (t1 t2 : list Event) :
  attempts (t1 ++ t2) = attempts t1 + attempts t2.
Proof.
  induction t1 as [|ev t1 IH]; simpl; [reflexivity|].
  destruct ev; simpl; rewrite IH; reflexivity.
Qed.

Lemma delays_app (t1 t2 : list Event) :
  delays (t1 ++ t2) = delays t1 ++ delays t2.
Proof.
  induction t1 as [|ev t1 IH]; simpl; [reflexivity|].
  destruct ev; simpl; rewrite IH; reflexivity.
Qed.

Lemma model_calls_app (t1 t2 : list Event) :
  model_calls (t1 ++ t2) = model_calls t1 + model_calls t2.
Proof.
  induction t1 as [|ev t1 IH]; simpl; [reflexivity|].
  destruct ev as [| | | |[]]; simpl; rewrite IH; reflexivity.
Qed.

Lemma model_requests_app (t1 t2 : list Event) :
  model_requests (t1 ++ t2) = model_requests t1 ++ model_requests t2.
Proof.
  induction t1 as [|ev t1 IH]; simpl; [reflexivity|].
  destruct ev as [| | | |[]]; simpl; rewrite IH; reflexivity.
Qed.

Lemma fetched_app (t1 t2 : list Event) :
  fetched (t1 ++ t2) = fetched t1 ++ fetched t2.
Proof.
  induction t1 as [|ev t1 IH]; simpl; [reflexivity|].
  destruct ev as [| | | |[]]; simpl; rewrite IH; reflexivity.
Qed.

Lemma attempts_host (evs : list HostEvent) : attempts (map Host evs) = 0.
Proof. induction evs; simpl; auto. Qed.

Lemma delays_host (evs : list HostEvent) : delays (map Host evs) = [].
Proof. induction evs; simpl; auto. Qed.

(** ** Substrings *)

Lemma prefix_spec (p s : string) :
  String.prefix p s = true <-> exists rest, s = (p ++ rest)%string.
Proof.
  revert s. induction p as [|c p IH]; intros s.
  - split; [intros _; exists s; reflexivity|].
    intros _. destruct s; reflexivity.
  - destruct s as [|d s]; simpl.
    + split; [discriminate|]. intros [rest H]. discriminate H.
    + destruct (Ascii.ascii_dec c d) as [Heq|Hne].
      * subst d. rewrite IH. split.
        -- intros [rest ->]. exists rest. reflexivity.
        -- intros [rest H]. injection H as ->. exists rest. reflexivity.
      * split; [discriminate|]. intros [rest H]. injection H as Hcd _.
        symmetry in Hcd. contradiction.
Qed.

(** [includes] is the substring test. *)
Lemma includes_spec (needle s : string) :
  includes needle s = true <->
  exists before after, s = (before ++ needle ++ after)%string.
Proof.
  induction s as [|c s IH].
  - change (includes needle EmptyString) with (String.prefix needle EmptyString || false).
    rewrite orb_false_r, prefix_spec. split.
    + intros [rest H]. exists EmptyString, rest. exact H.
    + intros (before & after & H). destruct before; [|discriminate H].
      exists after. exact H.
  - change (includes needle (String c s))
      with (String.prefix needle (String c s) || includes needle s).
    rewrite orb_true_iff, prefix_spec, IH. split.
    + intros [[rest H]|(before & after & ->)].
      * exists EmptyString, rest. exact H.
      * exists (String c before), after. reflexivity.
    + intros (before & after & H). destruct before as [|d before].
      * left. exists after. exact H.
      * right. injection H as _ ->. exists before, after. reflexivity.
Qed.

(** ** The retrier *)

Section RetrierProperties.

Variable E : Type.
Variable Math_random : E -> Q * E.
Variable T : Type.
Variable operation : Op E T.
Variable maxRetries : Z.
Variable initialDelay : Q.

Local Abbreviation loop := (retry_loop Math_random operation maxRetries initialDelay).
Local Abbreviation pause := (backoff Math_random maxRetries initialDelay).
Local Abbreviation exhausted :=
  (Throw (ErrorObject (new_Error RetriesExhausted_message))).

(** One attempt: the marker, then the events of the operation. *)
Lemma attempt_run (w : World E) :
  attempt operation w =
  (fst (fst (operation (env w))),
   {| env := snd (operation (env w));
      trace := (trace w ++ [Attempt])
               ++ map Host (snd (fst (operation (env w)))) |}).
Proof.
  unfold attempt, bind, emit, perform; simpl.
  destruct (operation (env w)) as [[r evs] e']; reflexivity.
Qed.

(** One backoff: a jitter draw, a log line, a timer wait; it never throws. *)
Lemma backoff_run (retries : Z) (w : World E) :
  pause retries w =
  (Normal tt,
   {| env := snd (Math_random (env w));
      trace := (trace w
                ++ [ConsoleLog
                      (Math_round
                         (waitTime initialDelay retries (fst (Math_random (env w)))))
                      (retries + 1) maxRetries])
               ++ [Delay (waitTime initialDelay retries (fst (Math_random (env w))))] |}).
Proof.
  unfold backoff, bind, random, delay, emit; simpl.
  destruct (Math_random (env w)) as [r e']; reflexivity.
Qed.

(** The loop, one iteration unfolded. *)
Lemma retry_loop_step (retries : Z) (lastError : option JsError) (w : World E) :
  loop retries lastError w =
  if (retries <? maxRetries)%Z then
    match attempt operation w with
    | (Normal v, w1) => (Normal v, w1)
    | (Throw error, w1) =>
        if is_transient error then
          match pause retries w1 with
          | (Normal _, w2) => loop (retries + 1)%Z (Some (as_Error error)) w2
          | (Throw v, w2) => (Throw v, w2)
          end
        else (Throw error, w1)
    end
  else (exhausted, w).
Proof.
  rewrite retry_loop_equation.
  destruct (retries <? maxRetries)%Z; [|reflexivity].
  destruct (attempt operation w) as [[v|error] w1]; reflexivity.
Qed.

(** Induction on the runs of the loop. *)
Lemma retry_loop_run_ind
  (P : Z -> World E -> Completion T * World E -> Prop) :
  (forall retries w, (maxRetries <= retries)%Z -> P retries w (exhausted, w)) ->
  (forall retries w v w1,
      (retries < maxRetries)%Z ->
      attempt operation w = (Normal v, w1) ->
      P retries w (Normal v, w1)) ->
  (forall retries w error w1,
      (retries < maxRetries)%Z ->
      attempt operation w = (Throw error, w1) ->
      is_transient error = false ->
      P retries w (Throw error, w1)) ->
  (forall retries w error w1 w2 res,
      (retries < maxRetries)%Z ->
      attempt operation w = (Throw error, w1) ->
      is_transient error = true ->
      pause retries w1 = (Normal tt, w2) ->
      P (retries + 1)%Z w2 res ->
      P retries w res) ->
  forall retries lastError w, P retries w (loop retries lastError w).
Proof.
  intros Hstop Hok Hperm Hagain retries.
  remember (Z.to_nat (maxRetries - retries)) as n eqn:Hn.
  revert retries Hn.
  induction n as [n IH] using lt_wf_ind.
  intros retries Hn lastError w.
  rewrite retry_loop_step.
  destruct (Z.ltb_spec retries maxRetries) as [Hlt|Hge]; [|apply Hstop; lia].
  destruct (attempt operation w) as [[v|error] w1] eqn:Hatt; [apply Hok; auto|].
  destruct (is_transient error) eqn:Htr; [|apply Hperm; auto].
  rewrite backoff_run.
  eapply Hagain; eauto using backoff_run.
  eapply (IH (Z.to_nat (maxRetries - (retries + 1)))); [lia|reflexivity].
Qed.

Local Abbreviation failures :=
  (transient_failures Math_random operation maxRetries initialDelay).

(** What a sequence of transient failures leaves in the trace. *)
Lemma transient_failures_trace (n : nat) (retries : Z) (w w' : World E) :
  failures n retries w w' ->
  attempts (trace w') = attempts (trace w) + n /\
  exists ds,
    delays (trace w') = delays (trace w) ++ ds /\
    length ds = n /\
    (forall i d, nth_error ds i = Some d ->
       exists e, d = waitTime initialDelay (retries + Z.of_nat i)
                       (fst (Math_random e))) /\
    (0 < n -> exists t d, trace w' = t ++ [Delay d]).
Proof.
  induction 1 as [retries w|n retries w e w1 w2 w3 Hatt Htr Hpause Hrest IH].
  - split; [lia|]. exists []. rewrite app_nil_r.
    repeat split; auto; [|lia].
    intros [|i] d; discriminate.
  - rewrite attempt_run in Hatt. rewrite backoff_run in Hpause.
    injection Hatt as _ Hw1. injection Hpause as Hw2.
    destruct IH as (Hcount & ds & Hds & Hlen & Hval & Hlast).
    subst w1 w2; simpl in *.
    rewrite !attempts_app, attempts_host in Hcount; simpl in Hcount.
    rewrite !delays_app, delays_host in Hds; simpl in Hds.
    rewrite !app_nil_r, <- app_assoc in Hds; simpl in Hds.
    split; [lia|].
    eexists (_ :: ds). split; [exact Hds|]. split; [simpl; lia|]. split.
    + intros [|i] d Hnth; simpl in Hnth.
      * injection Hnth as <-. rewrite Z.add_0_r. eauto.
      * destruct (Hval i d Hnth) as [e' ->].
        exists e'. f_equal. lia.
    + intros _. destruct n as [|n].
      * inversion Hrest; subst. simpl. do 2 eexists. reflexivity.
      * apply Hlast. lia.
Qed.

(** A longer sequence of transient failures starts with a shorter one. *)
Lemma transient_failures_prefix (m n : nat) (retries : Z) (w w' : World E) :
  failures n retries w w' -> m <= n ->
  exists w1, failures m retries w w1.
Proof.
  intros H. revert m.
  induction H as [retries w|n retries w e w1 w2 w3 Hatt Htr Hpause Hrest IH];
    intros m Hm.
  - assert (m = 0) as -> by lia. eexists; constructor.
  - destruct m as [|m]; [eexists; constructor|].
    destruct (IH m) as [w4 H4]; [lia|].
    eexists. econstructor; eauto.
Qed.

(** After [n] transient failures the loop is where it would be had it
    started there with the counter advanced by [n]. *)
Lemma retry_loop_after_failures (n : nat) (retries : Z) (w w' : World E) :
  failures n retries w w' ->
  (0 < n -> (retries + Z.of_nat n <= maxRetries)%Z) ->
  forall lastError, exists lastError',
    loop retries lastError w = loop (retries + Z.of_nat n)%Z lastError' w'.
Proof.
  induction 1 as [retries w|n retries w e w1 w2 w3 Hatt Htr Hpause Hrest IH];
    intros Hle lastError.
  - exists lastError. rewrite Z.add_0_r. reflexivity.
  - destruct (IH ltac:(lia) (Some e)) as [le' Heq].
    exists le'. rewrite retry_loop_step.
    destruct (Z.ltb_spec retries maxRetries) as [_|]; [|lia].
    rewrite Hatt; simpl. rewrite Htr, Hpause, Heq.
    f_equal. lia.
Qed.

(** When transient failures use up the whole budget, the loop ends on
    line 48, in the world the last backoff left. *)
Lemma retry_exhausted_run (w w' : World E) :
  failures (Z.to_nat maxRetries) 0 w w' ->
  retryWithBackoff Math_random operation maxRetries initialDelay w
    = (exhausted, w').
Proof.
  intros Hfail. unfold retryWithBackoff.
  destruct (retry_loop_after_failures Hfail ltac:(lia) None) as [le Heq].
  rewrite Heq, retry_loop_step.
  destruct (Z.ltb_spec (0 + Z.of_nat (Z.to_nat maxRetries)) maxRetries);
    [lia|reflexivity].
Qed.

(** C1 (retry then succeed): when the first [k] attempts fail with
    transient errors, [k] below the attempt budget, and the next attempt
    succeeds with [v], the retrier returns [v] in the very world the
    successful attempt left: [k + 1] attempts in all and nothing after
    the success. *)
Theorem retry_then_succeed (k : nat) (w w1 w2 : World E) (v : T) :
  (Z.of_nat k < maxRetries)%Z ->
  failures k 0 w w1 ->
  attempt operation w1 = (Normal v, w2) ->
  retryWithBackoff Math_random operation maxRetries initialDelay w
    = (Normal v, w2) /\
  attempts (trace w2) = attempts (trace w) + k + 1.
Proof.
  intros Hk Hfail Hok. split.
  - unfold retryWithBackoff.
    destruct (retry_loop_after_failures Hfail ltac:(lia) None) as [le Heq].
    rewrite Heq, retry_loop_step.
    destruct (Z.ltb_spec (0 + Z.of_nat k) maxRetries) as [_|]; [|lia].
    rewrite Hok. reflexivity.
  - destruct (transient_failures_trace Hfail) as [Hcount _].
    rewrite attempt_run in Hok. injection Hok as _ <-. simpl.
    rewrite !attempts_app, attempts_host. simpl. lia.
Qed.

(** C2 (exhaustion): when at least [maxRetries] consecutive attempts
    fail with transient errors, the retrier throws a fresh [Error] with
    the fixed exhaustion message, after exactly [maxRetries] failed
    attempts; that error is not classified transient, so it is none of
    the errors the operation threw. *)
Theorem retries_exhausted (n : nat) (w w' : World E) :
  (maxRetries <= Z.of_nat n)%Z ->
  failures n 0 w w' ->
  exists w1,
    failures (Z.to_nat maxRetries) 0 w w1 /\
    retryWithBackoff Math_random operation maxRetries initialDelay w
      = (exhausted, w1) /\
    forall e, message_is_transient (message e) = true ->
              e <> new_Error RetriesExhausted_message.
Proof.
  intros Hn Hfail.
  destruct (transient_failures_prefix (m := Z.to_nat maxRetries) Hfail)
    as [w1 H1]; [lia|].
  exists w1. split; [exact H1|]. split.
  - apply retry_exhausted_run, H1.
  - intros e He ->. vm_compute in He. discriminate.
Qed.

(** C3 (permanent failure): when the first attempt throws a value that
    is not classified transient, the retrier throws that same value in
    the world the attempt left: one attempt, no timer wait. *)
Theorem permanent_failure_propagates (error : JsValue) (w w1 : World E) :
  (0 < maxRetries)%Z ->
  attempt operation w = (Throw error, w1) ->
  is_transient error = false ->
  retryWithBackoff Math_random operation maxRetries initialDelay w
    = (Throw error, w1) /\
  attempts (trace w1) = attempts (trace w) + 1 /\
  delays (trace w1) = delays (trace w).
Proof.
  intros Hmax Hatt Hperm. split; [|split].
  - unfold retryWithBackoff. rewrite retry_loop_step.
    destruct (Z.ltb_spec 0 maxRetries) as [_|]; [|lia].
    rewrite Hatt, Hperm. reflexivity.
  - rewrite attempt_run in Hatt. injection Hatt as _ <-. simpl.
    rewrite !attempts_app, attempts_host. simpl. lia.
  - rewrite attempt_run in Hatt. injection Hatt as _ <-. simpl.
    rewrite !delays_app, delays_host. simpl. rewrite !app_nil_r. reflexivity.
Qed.

(** C10 (a wait after every transient failure): when the transient
    failures use up the budget, the exhaustion error is thrown in the
    world left by the last backoff: [maxRetries] attempts, [maxRetries]
    timer waits, each for a computed wait time, and the last event
    before the throw is a wait. *)
Theorem exhaustion_waits_after_every_failure (w w' : World E) :
  failures (Z.to_nat maxRetries) 0 w w' ->
  retryWithBackoff Math_random operation maxRetries initialDelay w
    = (exhausted, w') /\
  attempts (trace w') = attempts (trace w) + Z.to_nat maxRetries /\
  exists ds,
    delays (trace w') = delays (trace w) ++ ds /\
    length ds = Z.to_nat maxRetries /\
    (forall i d, nth_error ds i = Some d ->
       exists e, d = waitTime initialDelay (Z.of_nat i) (fst (Math_random e))) /\
    ((0 < maxRetries)%Z -> exists t d, trace w' = t ++ [Delay d]).
Proof.
  intros Hfail. split.
  - apply retry_exhausted_run, Hfail.
  - destruct (transient_failures_trace Hfail)
      as (Hcount & ds & Hds & Hlen & Hval & Hlast).
    split; [exact Hcount|]. exists ds. repeat split; auto.
    intros Hmax. apply Hlast. lia.
Qed.

End RetrierProperties.

(** ** Rounding *)

Lemma round_half_even_ge (N D k : Z) :
  (0 < D)%Z -> (k * D <= N)%Z -> (k <= round_half_even N D)%Z.
Proof.
  intros HD Hk. unfold round_half_even.
  assert (Hq : (k <= N / D)%Z) by (apply Z.div_le_lower_bound; lia).
  destruct (2 * (N mod D) ?= D)%Z; try lia.
  destruct (Z.even (N / D)); lia.
Qed.

Lemma round_half_even_le (N D k : Z) :
  (0 < D)%Z -> (N <= k * D)%Z -> (round_half_even N D <= k)%Z.
Proof.
  intros HD Hk. unfold round_half_even.
  assert (Hq : (N / D <= k)%Z) by (apply Z.div_le_upper_bound; lia).
  pose proof (Z.div_mod N D ltac:(lia)) as Hdm.
  pose proof (Z.mod_pos_bound N D HD) as Hr.
  destruct (Z.eq_dec (N / D) k) as [Heq | Hne].
  - assert (Hz : (N mod D = 0)%Z) by nia.
    assert (Hc : (2 * 0 ?= D)%Z = Lt) by (apply Z.compare_lt_iff; lia).
    rewrite Hz, Hc. lia.
  - destruct (2 * (N mod D) ?= D)%Z; try lia.
    destruct (Z.even (N / D)); lia.
Qed.

(** From exponent 0 on, [binade] is below the quotient. *)
Lemma binade_lower (n d : Z) :
  (0 < n)%Z -> (0 < d)%Z -> (0 <= binade n d)%Z ->
  (2 ^ binade n d * d <= n)%Z.
Proof.
  intros Hn Hd. unfold binade.
  set (k := (Z.log2 n - Z.log2 d)%Z).
  destruct (Z.leb_spec 0 k) as [Hk | Hk].
  - destruct (Z.ltb_spec n (2 ^ k * d)) as [Hlt | Hge]; [| lia].
    intros Hk1.
    pose proof (Z.log2_spec n Hn) as [Hn1 _].
    pose proof (Z.log2_spec d Hd) as [_ Hd2].
    pose proof (Z.log2_nonneg d) as Hld.
    assert (Hpow : (2 ^ Z.log2 n = 2 ^ (k - 1) * 2 ^ Z.succ (Z.log2 d))%Z).
    { rewrite <- Z.pow_add_r by lia. f_equal. unfold k. lia. }
    assert (Hp : (0 < 2 ^ (k - 1))%Z) by (apply Z.pow_pos_nonneg; lia).
    nia.
  - destruct (n * 2 ^ (- k) <? d)%Z; lia.
Qed.

(** Rounding does not leave an interval between two integers that are
    themselves binary64 numbers. *)
Lemma round_positive_between (n d a b : Z) :
  (0 < n)%Z -> (0 < d)%Z -> (0 <= a)%Z -> (b <= 2 ^ 53)%Z ->
  (a * d <= n)%Z -> (n <= b * d)%Z ->
  exists q, round_positive n d = Finite q /\
            (inject_Z a <= q)%Q /\ (q <= inject_Z b)%Q.
Proof.
  intros Hn Hd Ha Hb Han Hnb. unfold round_positive.
  set (g := Z.max (binade n d - 52) (-1074)).
  assert (Hbig : (2 ^ 53 < 2 ^ 1024)%Z) by (vm_compute; reflexivity).
  unfold scaled.
  destruct (Z.leb_spec 0 g) as [Hg | Hg].
  - assert (Hpg : (0 < 2 ^ g)%Z) by (apply Z.pow_pos_nonneg; lia).
    set (m := round_half_even n (d * 2 ^ g)).
    assert (Hm : (a <= m * 2 ^ g <= b)%Z).
    { destruct (Z.eq_dec g 0) as [Hg0 | Hg0].
      - subst m. rewrite Hg0. change (2 ^ 0)%Z with 1%Z.
        rewrite !Z.mul_1_r. split.
        + apply round_half_even_ge; lia.
        + apply round_half_even_le; lia.
      - assert (He : (0 <= binade n d)%Z) by lia.
        pose proof (@binade_lower n d Hn Hd He) as Hlow.
        assert (Hge : g = (binade n d - 52)%Z) by lia.
        assert (Hsplit : (2 ^ binade n d = 2 ^ 53 * 2 ^ (g - 1))%Z).
        { rewrite <- Z.pow_add_r by lia. f_equal. lia. }
        assert (Hp1 : (0 < 2 ^ (g - 1))%Z) by (apply Z.pow_pos_nonneg; lia).
        assert (Hg1 : g = 1%Z).
        { destruct (Z.eq_dec g 1) as [|Hne]; [assumption | exfalso].
          assert (H2 : (2 <= 2 ^ (g - 1))%Z).
          { change 2%Z with (2 ^ 1)%Z at 1. apply Z.pow_le_mono_r; lia. }
          nia. }
        subst m. rewrite Hg1 in *. change (2 ^ (1 - 1))%Z with 1%Z in *.
        change (2 ^ 1)%Z with 2%Z in *.
        assert (Hneq : n = (2 ^ 52 * (d * 2))%Z) by nia.
        assert (Hb53 : b = (2 ^ 53)%Z) by nia.
        assert (Hr : round_half_even n (d * 2) = (2 ^ 52)%Z).
        { apply Z.le_antisymm.
          - apply round_half_even_le; lia.
          - apply round_half_even_ge; lia. }
        rewrite Hr. change (2 ^ 52 * 2)%Z with (2 ^ 53)%Z. nia. }
    destruct (Z.leb_spec (2 ^ 1024) (m * 2 ^ g)) as [Hov | Hov]; [lia |].
    eexists. split; [reflexivity |].
    rewrite <- !Zle_Qle. lia.
  - set (m := round_half_even (n * 2 ^ (- g)) d).
    assert (Hz : (2 ^ g = 0)%Z) by (apply Z.pow_neg_r; lia).
    rewrite Hz, Z.mul_0_r.
    destruct (Z.leb_spec (2 ^ 1024) 0) as [Hov | Hov];
      [exfalso; revert Hov; vm_compute; intros H; apply H; reflexivity |].
    assert (Hp : (0 < 2 ^ (- g))%Z) by (apply Z.pow_pos_nonneg; lia).
    assert (Hlo : (a * 2 ^ (- g) <= m)%Z) by (apply round_half_even_ge; nia).
    assert (Hhi : (m <= b * 2 ^ (- g))%Z) by (apply round_half_even_le; nia).
    eexists. split; [reflexivity |].
    rewrite Qred_correct. unfold Qle. simpl.
    rewrite Z2Pos.id by lia. lia.
Qed.

Lemma round64_between (x : Q) (a b : Z) :
  (0 <= a)%Z -> (b <= 2 ^ 53)%Z ->
  (inject_Z a <= x)%Q -> (x <= inject_Z b)%Q ->
  exists q, round64 x = Finite q /\
            (inject_Z a <= q)%Q /\ (q <= inject_Z b)%Q.
Proof.
  intros Ha Hb Hax Hxb. destruct x as [n d]. unfold round64.
  unfold Qle in Hax, Hxb. simpl in Hax, Hxb. simpl Qnum. simpl Qden.
  destruct n as [| n | n].
  - exists 0%Q. split; [reflexivity |].
    unfold Qle. simpl. lia.
  - apply round_positive_between; lia.
  - exfalso. lia.
Qed.

(** ** Wait times *)

(** Up to [2^53] the power is computed exactly. *)
Lemma Math_pow2_exact (i : Z) :
  (0 <= i <= 53)%Z ->
  exists p, Math_pow2 i = Finite p /\ (p == inject_Z (2 ^ i))%Q.
Proof.
  intros Hi. unfold Math_pow2.
  assert (Hq : ((2 # 1) ^ i == inject_Z (2 ^ i))%Q).
  { change (2 # 1)%Q with (inject_Z 2). symmetry. apply Zpower_Qpower. lia. }
  assert (Hle : (2 ^ i <= 2 ^ 53)%Z) by (apply Z.pow_le_mono_r; lia).
  assert (Hpos : (0 < 2 ^ i)%Z) by (apply Z.pow_pos_nonneg; lia).
  destruct (@round64_between ((2 # 1) ^ i)%Q (2 ^ i) (2 ^ i))
    as (p & Hp & Hlo & Hhi); try lia.
  - rewrite Hq. apply Qle_refl.
  - rewrite Hq. apply Qle_refl.
  - exists p. split; [exact Hp|]. apply Qle_antisym; assumption.
Qed.

(** While the exponential term and the top of the jitter range are
    integers up to [2^53], the wait time is a finite number between the
    exponential term and that term plus 1000, both included. *)
Lemma waitTime_between (base i : Z) (r : Q) :
  (0 <= base)%Z -> (0 <= i <= 53)%Z ->
  (base * 2 ^ i + 1000 <= 2 ^ 53)%Z ->
  (0 <= r)%Q -> (r <= 1)%Q ->
  exists q, waitTime (inject_Z base) i r = Finite q /\
            (inject_Z (base * 2 ^ i) <= q)%Q /\
            (q <= inject_Z (base * 2 ^ i + 1000))%Q.
Proof.
  intros Hbase Hi Hfit Hr0 Hr1. unfold waitTime.
  assert (Hpos : (0 < 2 ^ i)%Z) by (apply Z.pow_pos_nonneg; lia).
  assert (Hk : (1000 <= 2 ^ 53)%Z) by (vm_compute; discriminate).
  destruct (Math_pow2_exact Hi) as (p & -> & Hp).
  cbv beta iota delta [Number_mul Number_add].
  destruct (@round64_between (inject_Z base * p)%Q (base * 2 ^ i) (base * 2 ^ i))
    as (t & -> & Ht0 & Ht1); try nia.
  { rewrite Hp, inject_Z_mult. apply Qle_refl. }
  { rewrite Hp, inject_Z_mult. apply Qle_refl. }
  destruct (@round64_between (r * 1000)%Q 0 1000)
    as (j & -> & Hj0 & Hj1); try lia.
  { change (inject_Z 0) with 0%Q. lra. }
  { change (inject_Z 1000) with 1000%Q. lra. }
  change (inject_Z 0) with 0%Q in Hj0.
  change (inject_Z 1000) with 1000%Q in Hj1.
  apply round64_between; try nia.
  - lra.
  - rewrite inject_Z_plus. change (inject_Z 1000) with 1000%Q. lra.
Qed.

(** A list is sorted when each element is below its successor. *)
Lemma Sorted_Qle_of_neighbours (ds : list Q) :
  (forall j a b, nth_error ds j = Some a -> nth_error ds (S j) = Some b ->
                 (a <= b)%Q) ->
  Sorted Qle ds.
Proof.
  induction ds as [|a ds IH]; intros H; constructor.
  - apply IH. intros j x y Hx Hy. apply (H (S j)); assumption.
  - destruct ds as [|b ds]; constructor.
    apply (H 0); reflexivity.
Qed.

(** Wait times in their intervals are in non-decreasing order as soon
    as the base delay is at least the jitter range. *)
Lemma interval_delays_sorted (base : Z) (qs : list Q) :
  (1000 <= base)%Z ->
  (forall i q, nth_error qs i = Some q ->
     (inject_Z (base * 2 ^ Z.of_nat i) <= q)%Q /\
     (q <= inject_Z (base * 2 ^ Z.of_nat i + 1000))%Q) ->
  Sorted Qle qs.
Proof.
  intros Hbase Hin. apply Sorted_Qle_of_neighbours.
  intros j a b Ha Hb.
  destruct (Hin j a Ha) as [_ Hup]. destruct (Hin (S j) b Hb) as [Hlow _].
  apply (Qle_trans _ _ _ Hup). refine (Qle_trans _ _ _ _ Hlow).
  rewrite <- Zle_Qle.
  rewrite Nat2Z.inj_succ, Z.pow_succ_r by lia.
  assert (0 < 2 ^ Z.of_nat j)%Z by (apply Z.pow_pos_nonneg; lia).
  nia.
Qed.

(** A list of finite numbers is the list of their values. *)
Lemma finite_values (P : nat -> Q -> Prop) (ds : list Number) :
  (forall i d, nth_error ds i = Some d -> exists q, d = Finite q /\ P i q) ->
  exists qs, ds = map Finite qs /\
             forall i q, nth_error qs i = Some q -> P i q.
Proof.
  revert P. induction ds as [|d ds IH]; intros P H.
  - exists []. split; [reflexivity|]. intros [|i] q; discriminate.
  - destruct (H 0 d eq_refl) as (q0 & -> & Hq0).
    destruct (IH (fun i q => P (S i) q)) as (qs & -> & Hqs).
    { intros i x Hx. apply (H (S i)). exact Hx. }
    exists (q0 :: qs). split; [reflexivity|].
    intros [|i] q Hq; simpl in Hq.
    + injection Hq as <-. exact Hq0.
    + apply Hqs. exact Hq.
Qed.

Section BackoffProperties.

Variable E : Type.
Variable Math_random : E -> Q * E.
Variable T : Type.
Variable operation : Op E T.

(** The contract of [Math.random]: a number in the interval [0, 1). *)
Hypothesis Math_random_range :
  forall e, (0 <= fst (Math_random e))%Q /\ (fst (Math_random e) < 1)%Q.

(** The timer waits of a run of the loop: at most one per remaining
    attempt, the [j]-th computed from the counter value [retries + j]. *)
Lemma retry_loop_delays (maxRetries : Z) (initialDelay : Q)
  (retries : Z) (lastError : option JsError) (w : World E) :
  exists ds,
    delays (trace (snd (retry_loop Math_random operation maxRetries
                          initialDelay retries lastError w)))
      = delays (trace w) ++ ds /\
    (Z.of_nat (length ds) <= Z.max 0 (maxRetries - retries))%Z /\
    forall j d, nth_error ds j = Some d ->
      exists e, d = waitTime initialDelay (retries + Z.of_nat j)
                      (fst (Math_random e)).
Proof.
  apply (@retry_loop_run_ind E Math_random T operation maxRetries initialDelay
           (fun retries w res =>
              exists ds,
                delays (trace (snd res)) = delays (trace w) ++ ds /\
                (Z.of_nat (length ds) <= Z.max 0 (maxRetries - retries))%Z /\
                forall j d, nth_error ds j = Some d ->
                  exists e, d = waitTime initialDelay (retries + Z.of_nat j)
                                  (fst (Math_random e)))).
  - intros r w0 _. exists []. simpl. rewrite app_nil_r.
    repeat split; [lia|]. intros [|j] d; discriminate.
  - intros r w0 v w1 _ Hatt. exists []. simpl.
    rewrite attempt_run in Hatt. injection Hatt as _ <-. simpl.
    rewrite !delays_app, delays_host. simpl. rewrite !app_nil_r.
    repeat split; [lia|]. intros [|j] d; discriminate.
  - intros r w0 error w1 _ Hatt _. exists []. simpl.
    rewrite attempt_run in Hatt. injection Hatt as _ <-. simpl.
    rewrite !delays_app, delays_host. simpl. rewrite !app_nil_r.
    repeat split; [lia|]. intros [|j] d; discriminate.
  - intros r w0 error w1 w2 res Hlt Hatt _ Hpause (ds & Hds & Hlen & Hval).
    rewrite attempt_run in Hatt. injection Hatt as _ <-.
    rewrite backoff_run in Hpause. injection Hpause as <-.
    simpl in Hds. rewrite !delays_app, delays_host in Hds. simpl in Hds.
    rewrite !app_nil_r, <- app_assoc in Hds. simpl in Hds.
    eexists (_ :: ds). split; [exact Hds|]. split; [simpl length; lia|].
    intros [|j] d Hnth; simpl in Hnth.
    + injection Hnth as <-. rewrite Z.add_0_r. eauto.
    + destruct (Hval j d Hnth) as [e ->]. exists e. f_equal. lia.
Qed.

(** The timer waits of a run under an integer base delay: each one in
    the exact range is a finite number in its interval. *)
Lemma retry_delays_between (maxRetries base : Z) (w : World E) :
  (0 <= base)%Z ->
  exists ds,
    delays (trace (snd (retryWithBackoff Math_random operation maxRetries
                          (inject_Z base) w)))
      = delays (trace w) ++ ds /\
    (Z.of_nat (length ds) <= Z.max 0 maxRetries)%Z /\
    forall i d, nth_error ds i = Some d ->
      (Z.of_nat i <= 53)%Z ->
      (base * 2 ^ Z.of_nat i + 1000 <= 2 ^ 53)%Z ->
      exists q, d = Finite q /\
                (inject_Z (base * 2 ^ Z.of_nat i) <= q)%Q /\
                (q <= inject_Z (base * 2 ^ Z.of_nat i + 1000))%Q.
Proof.
  intros Hbase. unfold retryWithBackoff.
  destruct (retry_loop_delays maxRetries (inject_Z base) 0 None w)
    as (ds & Hds & Hlen & Hval).
  exists ds. split; [exact Hds|]. split; [lia|].
  intros i d Hnth Hi Hfit. destruct (Hval i d Hnth) as [e ->].
  destruct (Math_random_range e) as [Hr0 Hr1].
  rewrite Z.add_0_l. apply waitTime_between; try lia; try assumption.
  apply Qlt_le_weak, Hr1.
Qed.

(** Under the default policy every wait is in the exact range. *)
Lemma default_policy_delays (w : World E) :
  exists qs,
    delays (trace (snd (retryWithBackoff Math_random operation
                          default_maxRetries default_initialDelay w)))
      = delays (trace w) ++ map Finite qs /\
    length qs <= 5 /\
    forall i q, nth_error qs i = Some q ->
      (inject_Z (2000 * 2 ^ Z.of_nat i) <= q)%Q /\
      (q <= inject_Z (2000 * 2 ^ Z.of_nat i + 1000))%Q.
Proof.
  destruct (@retry_delays_between default_maxRetries 2000 w ltac:(lia))
    as (ds & Hds & Hlen & Hval).
  change (inject_Z 2000) with default_initialDelay in Hds.
  unfold default_maxRetries in Hlen.
  destruct (@finite_values
              (fun i q => (inject_Z (2000 * 2 ^ Z.of_nat i) <= q)%Q /\
                          (q <= inject_Z (2000 * 2 ^ Z.of_nat i + 1000))%Q) ds)
    as (qs & -> & Hqs).
  { intros i d Hnth.
    assert (Hi : i < length ds) by (apply nth_error_Some; congruence).
    apply (Hval i d Hnth); [lia|].
    assert (Hp : (2 ^ Z.of_nat i <= 2 ^ 4)%Z) by (apply Z.pow_le_mono_r; lia).
    change (2 ^ 4)%Z with 16%Z in Hp.
    change (2 ^ 53)%Z with 9007199254740992%Z. lia. }
  exists qs. split; [exact Hds|]. split; [|exact Hqs].
  rewrite length_map in Hlen. lia.
Qed.

(** C5, amended (backoff interval): in every run of the retrier under
    an integer base delay [base >= 0], the wait after the [i]-th
    transient failure (counting from 0) is, as long as [i <= 53] and
    [base * 2^i + 1000 <= 2^53], a finite number in the closed interval
    from [base * 2^i] to [base * 2^i + 1000]; under the default policy
    (5 attempts, 2000 ms) all waits of a run are finite and in
    non-decreasing order. *)
Theorem backoff_delay_interval (maxRetries base : Z) (w : World E) :
  (0 <= base)%Z ->
  (exists ds,
     delays (trace (snd (retryWithBackoff Math_random operation maxRetries
                           (inject_Z base) w)))
       = delays (trace w) ++ ds /\
     forall i d, nth_error ds i = Some d ->
       (Z.of_nat i <= 53)%Z ->
       (base * 2 ^ Z.of_nat i + 1000 <= 2 ^ 53)%Z ->
       exists q, d = Finite q /\
                 (inject_Z (base * 2 ^ Z.of_nat i) <= q)%Q /\
                 (q <= inject_Z (base * 2 ^ Z.of_nat i + 1000))%Q) /\
  (exists qs,
     delays (trace (snd (retryWithBackoff Math_random operation
                           default_maxRetries default_initialDelay w)))
       = delays (trace w) ++ map Finite qs /\
     Sorted Qle qs).
Proof.
  intros Hbase. split.
  - destruct (@retry_delays_between maxRetries base w Hbase)
      as (ds & Hds & _ & Hval).
    exists ds. split; [exact Hds | exact Hval].
  - destruct (default_policy_delays w) as (qs & Hds & _ & Hin).
    exists qs. split; [exact Hds|].
    apply (@interval_delays_sorted 2000); [lia | exact Hin].
Qed.

End BackoffProperties.

(** The model of the numbers computes what the processor computes: on
    these inputs, which cover an exact sum, rounded products and sums, a
    subnormal result, the overflow to infinity and NaN, the wait time of
    the primitive floats stands for the wait time above. *)
Lemma waitTime_agrees_with_binary64 :
  Forall (fun c : float * nat * float =>
            let '(d, i, r) := c in
            float_Number (waitTime_binary64 d i r)
              = waitTime (float_Q d) (Z.of_nat i) (float_Q r))
    [ (2000%float, 0, 0.5%float);
      (2000%float, 4, 0x1.fffffffffffffp-1%float);
      (2000%float, 3, 0x1.3333333333333p-2%float);
      (0x1.999999999999ap-4%float, 7, 0.75%float);
      (0x1.7e43c8800759cp+996%float, 30, 0.5%float);
      (0x0.00000000007e8p-1022%float, 2, 0%float);
      (0x0.00000000007e8p-1022%float, 0, 0x0.0000000000014p-1022%float);
      (3%float, 1200, 0.25%float);
      (0%float, 1100, 0.25%float);
      (0x1p60%float, 0, 0x1.ffffffffffffep-1%float);
      (0x1.fffffffffffffp+1023%float, 1, 0.5%float);
      (2000%float, 0, 0x1.fffffffffffffp-1%float);
      (2000%float, 1, 0x1.ffffffffffffep-1%float);
      (2000%float, 2, 0x1.ffffffffffffep-1%float);
      (2000%float, 3, 0x1.ffffffffffffep-1%float);
      (2000%float, 4, 0x1.ffffffffffffep-1%float);
      (2000%float, 1, 0x1p-1074%float);
      (2000%float, 1023, 0.5%float);
      (2000%float, 1024, 0.5%float);
      (0x1.d6f34547df3b6p+26%float, 20, 0x1.ffffef39085f5p-1%float) ].
Proof. repeat constructor; vm_compute; reflexivity. Qed.

(** C5 as stated fails on the numbers the code computes with.  Take the
    default policy and a random source that answers [1 - 2^-52]
    (0.9999999999999998), a double below 1.  The jitter is the double
    [1000 - 2^-42]; its sum with 2000 lies halfway between the doubles
    [3000 - 2^-41] and 3000, and the tie goes to the even significand,
    3000: the wait after the first failure is the excluded upper end of
    the interval. *)
Lemma wait_time_reaches_upper_end :
  let r := Scenario.top_jitter in
  (0 <= r)%Q /\ (r < 1)%Q /\
  round64 r = Finite r /\
  float_Number 0x1.ffffffffffffep-1 = Finite r /\
  waitTime default_initialDelay 0 r = Finite 3000 /\
  float_Number (waitTime_binary64 2000 0 0x1.ffffffffffffep-1) = Finite 3000 /\
  delays (trace (snd (retryWithBackoff Scenario.Math_random_top Scenario.ping
                        default_maxRetries default_initialDelay
                        (Scenario.start
                           [Throw Scenario.overloaded; Scenario.answer "ok"]))))
    = [Finite 3000] /\
  ~ (3000 < default_initialDelay * inject_Z (2 ^ 0) + 1000)%Q.
Proof.
  repeat split; try (vm_compute; reflexivity).
  - vm_compute. discriminate.
  - vm_compute. intros H. discriminate H.
Qed.

(** Outside the exact range the interval is left: with a base delay of
    [2^60] the same jitter gives a wait of [2^60 + 1024]; with a base
    delay of 0 and a counter from 1024 on the wait is not a number; with
    a positive base delay and such a counter it is infinite. *)
Lemma wait_time_outside_exact_range :
  waitTime (inject_Z (2 ^ 60)) 0 Scenario.top_jitter
    = Finite (inject_Z (2 ^ 60 + 1024)) /\
  waitTime 0 1024 (1 # 2) = NaN /\
  waitTime default_initialDelay 1024 (1 # 2) = Infinite false.
Proof. repeat split; vm_compute; reflexivity. Qed.

(** ** The Binary Encoder *)

Lemma js_split_free (sep : ascii) (s : string) :
  free_of sep s = true -> js_split sep s = [s].
Proof.
  induction s as [|c s IH]; simpl; [reflexivity|].
  destruct (Ascii.eqb c sep); simpl; [discriminate|].
  intros H. rewrite (IH H). reflexivity.
Qed.

Lemma js_split_first (sep : ascii) (pre rest : string) :
  free_of sep pre = true ->
  js_split sep (pre ++ String sep rest) = pre :: js_split sep rest.
Proof.
  induction pre as [|c pre IH]; simpl.
  - rewrite Ascii.eqb_refl. reflexivity.
  - destruct (Ascii.eqb c sep); simpl; [discriminate|].
    intros H. rewrite (IH H). reflexivity.
Qed.

Lemma free_of_spec (sep : ascii) (s : string) :
  free_of sep s = false <->
  exists pre rest, s = (pre ++ String sep rest)%string /\ free_of sep pre = true.
Proof.
  induction s as [|c s IH]; simpl.
  - split; [discriminate|]. intros (pre & rest & H & _).
    destruct pre; discriminate.
  - destruct (Ascii.eqb_spec c sep) as [->|Hne]; simpl.
    + split; [|reflexivity]. intros _. exists EmptyString, s. split; reflexivity.
    + rewrite IH. split.
      * intros (pre & rest & -> & Hpre). exists (String c pre), rest.
        split; [reflexivity|]. simpl.
        destruct (Ascii.eqb_spec c sep); [contradiction|exact Hpre].
      * intros (pre & rest & Heq & Hpre).
        destruct pre as [|c' pre]; simpl in *.
        -- injection Heq as -> _. contradiction.
        -- injection Heq as <- ->. exists pre, rest. split; [reflexivity|].
           destruct (Ascii.eqb c sep); [discriminate|exact Hpre].
Qed.

Section EncoderProperties.

Variable E : Type.
Variable FileReader_readAsDataURL : Blob -> E -> option string * E.

Local Abbreviation encode := (blobToBase64 FileReader_readAsDataURL).

(** The encoder reads once and settles on what was read. *)
Lemma blobToBase64_run (b : Blob) (w : World E) :
  encode b w =
  (settle (fst (FileReader_readAsDataURL b (env w))),
   {| env := snd (FileReader_readAsDataURL b (env w));
      trace := trace w ++ [Host (ReadAsDataURL b)] |}).
Proof.
  unfold blobToBase64, bind, perform, readAsDataURL.
  destruct (FileReader_readAsDataURL b (env w)) as [result e']. reflexivity.
Qed.

(** C9, amended (encoder): on an encoded output with a single comma the
    encoder returns everything after the comma, provided it is not
    empty; it rejects with the read error when the resource cannot be
    read, and with the conversion error when the output has no comma or
    nothing after it. *)
Theorem blobToBase64_single_comma (b : Blob) (w : World E)
  (result : option string) (e' : E) :
  FileReader_readAsDataURL b (env w) = (result, e') ->
  let w' := {| env := e'; trace := trace w ++ [Host (ReadAsDataURL b)] |} in
  (result = None ->
   encode b w
     = (Throw (ErrorObject (new_Error "Failed to read image file")), w')) /\
  (forall s, result = Some s -> free_of "," s = true ->
   encode b w
     = (Throw (ErrorObject (new_Error "Failed to convert image to base64")), w')) /\
  (forall pre payload,
     result = Some (pre ++ String "," payload)%string ->
     free_of "," pre = true -> free_of "," payload = true ->
     encode b w
       = (match payload with
          | EmptyString =>
              Throw (ErrorObject (new_Error "Failed to convert image to base64"))
          | _ => Normal payload
          end, w')).
Proof.
  intros Hread w'. rewrite blobToBase64_run, Hread. simpl. subst w'.
  split; [|split].
  - intros ->. reflexivity.
  - intros s -> Hfree. simpl. unfold onloadend.
    rewrite (@js_split_free _ _ Hfree). reflexivity.
  - intros pre payload -> Hpre Hpay. simpl. unfold onloadend.
    rewrite (@js_split_first _ _ payload Hpre), (@js_split_free _ _ Hpay). simpl.
    destruct payload; reflexivity.
Qed.

End EncoderProperties.

(** C9 as stated fails: an empty resource is read without error and its
    data URL has the comma, yet the encoder rejects. *)
Lemma encoder_rejects_empty_payload :
  ~ (throws (fst (blobToBase64 Scenario.FileReader_readAsDataURL
                    Scenario.empty_png (Scenario.start []))) = true <->
     (fst (Scenario.FileReader_readAsDataURL Scenario.empty_png []) = None \/
      exists s,
        fst (Scenario.FileReader_readAsDataURL Scenario.empty_png []) = Some s /\
        free_of "," s = true)).
Proof.
  intros [Hfail _].
  destruct (Hfail eq_refl) as [Hnone|(s & Hs & Hfree)].
  - discriminate Hnone.
  - injection Hs as <-. vm_compute in Hfree. discriminate Hfree.
Qed.

Lemma blobToBase64_single_comma_witness :
  Scenario.FileReader_readAsDataURL Scenario.png []
    = (Some ("data:image/png;base64" ++ String "," "iVBORw==")%string, []) /\
  blobToBase64 Scenario.FileReader_readAsDataURL Scenario.png (Scenario.start [])
    = (Normal "iVBORw=="%string,
       {| env := []; trace := [Host (ReadAsDataURL Scenario.png)] |}).
Proof.
  split; [reflexivity|].
  destruct (blobToBase64_single_comma Scenario.FileReader_readAsDataURL
              Scenario.png (Scenario.start []) (e' := []) eq_refl)
    as (_ & _ & Hsingle).
  apply (Hsingle "data:image/png;base64"%string "iVBORw=="%string);
    reflexivity.
Defined.

(** ** The Analysis Orchestrator *)

Lemma text_only_spec (imageUrl language : string) :
  text_only imageUrl language = true <->
  imageUrl = EmptyString /\ language <> "english"%string.
Proof.
  unfold text_only.
  destruct (String.eqb_spec imageUrl EmptyString) as [->|Hurl];
    destruct (String.eqb_spec language "english") as [->|Hlang]; simpl;
    split; try discriminate; try tauto; auto.
Qed.

Section OrchestratorProperties.

Variable E : Type.
Variable Math_random : E -> Q * E.
Variable model_generateContent :
  list Part -> E -> Completion (option GenerateContentResponse) * E.
Variable fetch : string -> E -> Completion Response * E.
Variable FileReader_readAsDataURL : Blob -> E -> option string * E.

Local Abbreviation analyze :=
  (analyzeXrayImage Math_random model_generateContent fetch
     FileReader_readAsDataURL).
Local Abbreviation body :=
  (analyze_body Math_random model_generateContent fetch
     FileReader_readAsDataURL).
Local Abbreviation generate := (generateContent model_generateContent).

(** The closure calls the model once, with the parts it was built on. *)
Lemma generateContent_events (parts : list Part) (e : E) :
  snd (fst (generate parts e)) = [GenerateContent parts].
Proof.
  unfold generateContent.
  destruct (model_generateContent parts e) as [r e']. reflexivity.
Qed.

(** A run of the loop on the closure extends the trace with attempts,
    log lines, waits and model calls on the same parts: no fetch. *)
Lemma retry_loop_generate_trace (parts : list Part) (m : Z) (base : Q)
  (retries : Z) (lastError : option JsError) (w : World E) :
  exists evs,
    trace (snd (retry_loop Math_random (generate parts) m base
                  retries lastError w)) = trace w ++ evs /\
    fetched evs = [] /\
    Forall (eq parts) (model_requests evs).
Proof.
  apply (@retry_loop_run_ind E Math_random string (generate parts) m base
           (fun _ w res =>
              exists evs,
                trace (snd res) = trace w ++ evs /\
                fetched evs = [] /\
                Forall (eq parts) (model_requests evs))).
  - intros _ w0 _. exists []. simpl. rewrite app_nil_r. auto.
  - intros _ w0 v w1 _ Hatt.
    rewrite attempt_run, generateContent_events in Hatt.
    injection Hatt as _ <-. simpl. rewrite <- app_assoc.
    eexists. split; [reflexivity|]. simpl. auto.
  - intros _ w0 error w1 _ Hatt _.
    rewrite attempt_run, generateContent_events in Hatt.
    injection Hatt as _ <-. simpl. rewrite <- app_assoc.
    eexists. split; [reflexivity|]. simpl. auto.
  - intros r w0 error w1 w2 res _ Hatt _ Hpause (evs & Hevs & Hf & Hreq).
    rewrite attempt_run, generateContent_events in Hatt.
    injection Hatt as _ <-.
    rewrite backoff_run in Hpause. injection Hpause as <-.
    simpl in Hevs. rewrite <- !app_assoc in Hevs. simpl in Hevs.
    eexists. split; [exact Hevs|]. simpl. auto.
Qed.

(** With a positive budget the run starts with a model call. *)
Lemma retry_generate_trace (parts : list Part) (m : Z) (base : Q) (w : World E) :
  (0 < m)%Z ->
  exists rest,
    trace (snd (retryWithBackoff Math_random (generate parts) m base w))
      = trace w ++ Attempt :: Host (GenerateContent parts) :: rest /\
    fetched rest = [] /\
    Forall (eq parts) (model_requests rest).
Proof.
  intros Hm. unfold retryWithBackoff. rewrite retry_loop_step.
  destruct (Z.ltb_spec 0 m) as [_|]; [|lia].
  rewrite attempt_run, generateContent_events.
  destruct (fst (fst (generate parts (env w)))) as [v|error]; simpl.
  - rewrite <- app_assoc. exists []. simpl. auto.
  - destruct (is_transient error); simpl.
    + rewrite backoff_run.
      match goal with
      | |- context [retry_loop _ _ _ _ ?r ?le ?w2] =>
          destruct (retry_loop_generate_trace parts m base r le w2)
            as (evs & Hevs & Hf & Hreq)
      end.
      rewrite Hevs. simpl. rewrite <- !app_assoc. simpl.
      eexists. split; [reflexivity|]. simpl. auto.
    + rewrite <- app_assoc. exists []. simpl. auto.
Qed.

(** The [catch] block: one console line, then a fresh [Error] whose
    message depends on the value caught. *)
Lemma normalize_run (error : JsValue) (w : World E) :
  normalize error w =
  (Throw (ErrorObject (new_Error
     match error with
     | ErrorObject e =>
         if message_is_transient (message e)
         then ServiceUnavailable_message else message e
     | NonError _ => Unexpected_message
     end)),
   {| env := env w; trace := trace w ++ [ConsoleError error] |}).
Proof.
  unfold normalize, bind, emit, throw; simpl.
  destruct error as [e|r]; [destruct (message_is_transient (message e))|];
    reflexivity.
Qed.

(** The function adds to the trace of its [try] block the console line
    of the [catch] block, when the block threw. *)
Lemma analyze_trace (imageUrl prompt language : string) (w : World E) :
  trace (snd (analyze imageUrl prompt language w)) =
  trace (snd (body imageUrl prompt language w))
  ++ match fst (body imageUrl prompt language w) with
     | Normal _ => []
     | Throw v => [ConsoleError v]
     end.
Proof.
  unfold analyzeXrayImage, try_catch.
  destruct (body imageUrl prompt language w) as [[s|v] w1]; simpl.
  - rewrite app_nil_r. reflexivity.
  - rewrite normalize_run. reflexivity.
Qed.

(** Outside the text-only branch the first thing done is the fetch. *)
Lemma image_branch_trace (imageUrl prompt language : string) (w : World E) :
  text_only imageUrl language = false ->
  exists rest,
    trace (snd (body imageUrl prompt language w))
      = trace w ++ Host (Fetch imageUrl) :: rest.
Proof.
  intros Hmode. unfold analyze_body. rewrite Hmode.
  unfold bind at 1. unfold perform, fetch_url.
  destruct (fetch imageUrl (env w)) as [[response|v] e1]; simpl;
    [|eexists; reflexivity].
  destruct (ok response); simpl; [|eexists; reflexivity].
  unfold bind at 1. unfold await.
  destruct (blob response) as [imageBlob|v]; simpl; [|eexists; reflexivity].
  unfold bind at 1. rewrite blobToBase64_run. simpl.
  destruct (settle _) as [base64Image|v]; simpl.
  - match goal with
    | |- context [retryWithBackoff _ (generate ?parts) ?m ?b ?w1] =>
        destruct (retry_generate_trace parts b w1 (m := m) eq_refl)
          as (rest & Hrest & _)
    end.
    rewrite Hrest. simpl. rewrite <- !app_assoc. simpl.
    eexists. reflexivity.
  - rewrite <- app_assoc. simpl. eexists. reflexivity.
Qed.

Local Abbreviation failures :=
  (transient_failures Math_random).

(** C6 (branch selection): the run starts with a model call on the
    single text part of the translation request, and never fetches,
    exactly when the image URL is empty and the language is not
    english; in every other case it starts by fetching the image URL,
    so with no image and english it fetches the empty URL. *)
Theorem text_only_branch (imageUrl prompt language : string) (w : World E) :
  let t' := trace (snd (analyze imageUrl prompt language w)) in
  ((imageUrl = EmptyString /\ language <> "english"%string) <->
   exists rest,
     t' = trace w
          ++ Attempt
          :: Host (GenerateContent
                     [TextPart ("You are a medical professional. " ++ prompt
                                ++ " Provide the response in " ++ language
                                ++ " language.")%string])
          :: rest /\
     fetched rest = []) /\
  (~ (imageUrl = EmptyString /\ language <> "english"%string) ->
   exists rest, t' = trace w ++ Host (Fetch imageUrl) :: rest) /\
  (imageUrl = EmptyString -> language = "english"%string ->
   exists rest, t' = trace w ++ Host (Fetch EmptyString) :: rest).
Proof.
  intros t'.
  assert (Himage : text_only imageUrl language = false ->
                   exists rest, t' = trace w ++ Host (Fetch imageUrl) :: rest).
  { intros Hmode. subst t'. rewrite analyze_trace.
    destruct (@image_branch_trace imageUrl prompt language w Hmode) as [rest ->].
    rewrite <- app_assoc. simpl. eexists. reflexivity. }
  assert (Hno : ~ (imageUrl = EmptyString /\ language <> "english"%string) ->
                text_only imageUrl language = false).
  { intros Hn. destruct (text_only imageUrl language) eqn:Hmode; [|reflexivity].
    apply text_only_spec in Hmode. contradiction. }
  split; [split|split].
  - intros Hcond. apply text_only_spec in Hcond.
    subst t'. rewrite analyze_trace. unfold analyze_body. rewrite Hcond.
    match goal with
    | |- context [retryWithBackoff _ (generate ?parts) ?m ?b ?w1] =>
        destruct (retry_generate_trace parts b w1 (m := m) eq_refl)
          as (rest & Hrest & Hf & _)
    end.
    rewrite Hrest. rewrite <- app_assoc. simpl.
    eexists. split; [reflexivity|].
    rewrite fetched_app, Hf.
    destruct (fst _); reflexivity.
  - intros (rest & Hrest & _).
    destruct (text_only imageUrl language) eqn:Hmode;
      [apply text_only_spec; exact Hmode|].
    destruct (Himage eq_refl) as [rest' Hrest'].
    rewrite Hrest' in Hrest. apply app_inv_head in Hrest. discriminate Hrest.
  - intros Hn. apply Himage, Hno, Hn.
  - intros -> ->. apply Himage. reflexivity.
Qed.

(** C7 (image-grounded request): the directive is the Hindi sentence
    for hindi, the Marathi sentence for marathi and empty for every
    other language; once the image is fetched and encoded, every call
    of the model, and there is at least one, carries the instruction
    text ending in the directive and the image part with the type of
    the fetched blob and the encoded payload. *)
Theorem image_request_parts (imageUrl prompt language : string) (w : World E)
  (response : Response) (e1 e2 : E) (imageBlob : Blob)
  (dataUrl base64Image : string) :
  text_only imageUrl language = false ->
  fetch imageUrl (env w) = (Normal response, e1) ->
  ok response = true ->
  blob response = Normal imageBlob ->
  FileReader_readAsDataURL imageBlob e1 = (Some dataUrl, e2) ->
  onloadend dataUrl = Normal base64Image ->
  exists directive,
    (language = "hindi"%string ->
     directive = "Provide the analysis in Hindi language."%string) /\
    (language = "marathi"%string ->
     directive = "Provide the analysis in Marathi language."%string) /\
    (language <> "hindi"%string -> language <> "marathi"%string ->
     directive = EmptyString) /\
    exists first rest,
      model_requests (trace (snd (analyze imageUrl prompt language w)))
        = model_requests (trace w) ++ first :: rest /\
      Forall
        (eq [ TextPart
                ("You are a medical professional analyzing an X-ray image. Please provide a detailed analysis based on the following prompt: "
                 ++ prompt ++ ". " ++ directive)%string;
              InlineDataPart (type imageBlob) base64Image ])
        (first :: rest).
Proof.
  intros Hmode Hfetch Hok Hblob Hread Hload.
  exists (languagePrompt language).
  split; [intros ->; reflexivity|].
  split; [intros ->; reflexivity|].
  split.
  { intros Hh Hm. unfold languagePrompt.
    destruct (String.eqb_spec language "hindi"); [contradiction|].
    destruct (String.eqb_spec language "marathi"); [contradiction|].
    reflexivity. }
  assert (Hbody :
    body imageUrl prompt language w =
    retryWithBackoff Math_random
      (generate (image_request prompt language imageBlob base64Image))
      default_maxRetries default_initialDelay
      {| env := e2;
         trace := (trace w ++ [Host (Fetch imageUrl)])
                  ++ [Host (ReadAsDataURL imageBlob)] |}).
  { unfold analyze_body. rewrite Hmode.
    unfold bind at 1. unfold perform, fetch_url. rewrite Hfetch. simpl.
    rewrite Hok. simpl.
    unfold bind at 1. unfold await. rewrite Hblob.
    unfold bind at 1. rewrite blobToBase64_run. simpl. rewrite Hread. simpl.
    rewrite Hload. reflexivity. }
  rewrite analyze_trace, Hbody.
  match goal with
  | |- context [retryWithBackoff _ (generate ?parts) ?m ?b ?w1] =>
      destruct (retry_generate_trace parts b w1 (m := m) eq_refl)
        as (rest & Hrest & _ & Hreq)
  end.
  rewrite Hrest. simpl.
  exists (image_request prompt language imageBlob base64Image),
         (model_requests rest).
  split; [|constructor; [reflexivity|exact Hreq]].
  rewrite !model_requests_app. simpl. rewrite !app_nil_r.
  match goal with
  | |- context [model_requests (match ?c with _ => _ end)] =>
      assert (Hcatch : model_requests (match c with
                                      | Normal _ => []
                                      | Throw v => [ConsoleError v]
                                      end) = [])
        by (destruct c; reflexivity)
  end.
  rewrite Hcatch, app_nil_r. reflexivity.
Qed.

(** C8 (fetch failure): outside the text-only branch, when the fetch
    answers with a status that is not a success, the function throws an
    [Error] with the fetch message right after the fetch: the model is
    not called and the retrier is not entered. *)
Theorem fetch_failure_before_model (imageUrl prompt language : string)
  (w : World E) (response : Response) (e1 : E) :
  text_only imageUrl language = false ->
  fetch imageUrl (env w) = (Normal response, e1) ->
  ok response = false ->
  let failure := ErrorObject (new_Error "Failed to fetch image") in
  let w' := {| env := e1;
               trace := trace w ++ [Host (Fetch imageUrl); ConsoleError failure] |} in
  analyze imageUrl prompt language w = (Throw failure, w') /\
  model_calls (trace w') = model_calls (trace w) /\
  attempts (trace w') = attempts (trace w).
Proof.
  intros Hmode Hfetch Hok failure w'. split; [|split].
  - unfold analyzeXrayImage, try_catch, analyze_body. rewrite Hmode.
    unfold bind at 1. unfold perform, fetch_url. rewrite Hfetch. simpl.
    rewrite Hok. simpl. rewrite normalize_run. simpl.
    rewrite <- app_assoc. reflexivity.
  - subst w'. simpl. rewrite model_calls_app. simpl. lia.
  - subst w'. simpl. rewrite attempts_app. simpl. lia.
Qed.

(** C4 (what surfaces after exhaustion): in the text-only branch, when
    the model fails with transient errors on all five attempts, the
    function throws an [Error] carrying the message of the retrier, not
    the service-unavailable message of the [catch] block: the retrier's
    message contains neither 503 nor overloaded, so the first test of
    the [catch] block does not fire. *)
Theorem exhaustion_surfaces_retrier_message (prompt language : string)
  (w w1 : World E) :
  language <> "english"%string ->
  failures (generate [TextPart (text_only_instruction prompt language)])
    default_maxRetries default_initialDelay 5 0 w w1 ->
  let surfaced :=
    ErrorObject (new_Error
      "Maximum retries reached. The service is currently unavailable. Please try again later.") in
  analyze EmptyString prompt language w
    = (Throw surfaced,
       {| env := env w1; trace := trace w1 ++ [ConsoleError surfaced] |}) /\
  surfaced <> ErrorObject (new_Error ServiceUnavailable_message).
Proof.
  intros Hlang Hfail surfaced. split; [|discriminate].
  assert (Hmode : text_only EmptyString language = true)
    by (apply text_only_spec; auto).
  unfold analyzeXrayImage, try_catch, analyze_body. rewrite Hmode.
  rewrite (retry_exhausted_run (maxRetries := default_maxRetries) Hfail).
  rewrite normalize_run. reflexivity.
Qed.

(** The three tiers of the [catch] block as the code has them: a caught
    [Error] whose message is classified transient is replaced by the
    service-unavailable message, any other [Error] by a fresh one with
    the same message, and a value that is not an [Error] by the generic
    message. *)
Lemma catch_tiers (imageUrl prompt language : string) (w w1 : World E)
  (v : JsValue) :
  body imageUrl prompt language w = (Throw v, w1) ->
  exists msg,
    analyze imageUrl prompt language w
      = (Throw (ErrorObject (new_Error msg)),
         {| env := env w1; trace := trace w1 ++ [ConsoleError v] |}) /\
    (forall e, v = ErrorObject e -> message_is_transient (message e) = true ->
               msg = ServiceUnavailable_message) /\
    (forall e, v = ErrorObject e -> message_is_transient (message e) = false ->
               msg = message e) /\
    (forall r, v = NonError r -> msg = Unexpected_message).
Proof.
  intros Hbody. unfold analyzeXrayImage, try_catch. rewrite Hbody.
  rewrite normalize_run. eexists. split; [reflexivity|].
  repeat split.
  - intros e -> ->. reflexivity.
  - intros e -> ->. reflexivity.
  - intros r ->. reflexivity.
Qed.

End OrchestratorProperties.

(** ** The properties on the scripted host *)

(** Builds a sequence of transient failures by running the scripted
    host, one failed attempt and one backoff at a time. *)
Ltac run_failures :=
  repeat (eapply transient_again;
          [cbv; reflexivity | reflexivity | cbv; reflexivity | ]);
  apply transient_none.

(** Two overloaded answers, then a result: the third attempt wins. *)
Lemma retry_then_succeed_witness :
  exists w1 w2,
    (Z.of_nat 2 < 5)%Z /\
    transient_failures Scenario.Math_random Scenario.ping 5 2000 2 0
      (Scenario.start Scenario.flaky) w1 /\
    attempt Scenario.ping w1 = (Normal "No fracture."%string, w2) /\
    retryWithBackoff Scenario.Math_random Scenario.ping 5 2000
      (Scenario.start Scenario.flaky) = (Normal "No fracture."%string, w2) /\
    attempts (trace w2) = 3.
Proof.
  do 2 eexists.
  assert (Hk : (Z.of_nat 2 < 5)%Z) by lia.
  split; [exact Hk|].
  match goal with |- ?A /\ _ => assert (Hfail : A) by run_failures end.
  split; [exact Hfail|].
  match goal with |- ?A /\ _ => assert (Hok : A) by (cbv; reflexivity) end.
  split; [exact Hok|].
  exact (retry_then_succeed Hk Hfail Hok).
Defined.

(** A service that stays overloaded: six failures in a row are more than
    the budget of five. *)
Lemma retries_exhausted_witness :
  exists w' w1,
    (5 <= Z.of_nat 6)%Z /\
    transient_failures Scenario.Math_random Scenario.ping 5 2000 6 0
      (Scenario.start []) w' /\
    transient_failures Scenario.Math_random Scenario.ping 5 2000
      (Z.to_nat 5) 0 (Scenario.start []) w1 /\
    retryWithBackoff Scenario.Math_random Scenario.ping 5 2000
      (Scenario.start [])
      = (Throw (ErrorObject (new_Error RetriesExhausted_message)), w1).
Proof.
  assert (Hn : (5 <= Z.of_nat 6)%Z) by lia.
  assert (Hfail : exists w', transient_failures Scenario.Math_random
                    Scenario.ping 5 2000 6 0 (Scenario.start []) w')
    by (eexists; run_failures).
  destruct Hfail as [w' Hfail].
  destruct (retries_exhausted Hn Hfail) as (w1 & H1 & Hrun & _).
  exists w', w1. auto.
Defined.

(** A rejected API key is not retried. *)
Lemma permanent_failure_propagates_witness :
  exists w1,
    (0 < 5)%Z /\
    attempt Scenario.ping (Scenario.start [Throw Scenario.bad_request])
      = (Throw Scenario.bad_request, w1) /\
    is_transient Scenario.bad_request = false /\
    retryWithBackoff Scenario.Math_random Scenario.ping 5 2000
      (Scenario.start [Throw Scenario.bad_request])
      = (Throw Scenario.bad_request, w1) /\
    attempts (trace w1) = 1 /\
    delays (trace w1) = [].
Proof.
  eexists.
  assert (Hmax : (0 < 5)%Z) by lia.
  split; [exact Hmax|].
  match goal with |- ?A /\ _ => assert (Hatt : A) by (cbv; reflexivity) end.
  split; [exact Hatt|].
  assert (Hperm : is_transient Scenario.bad_request = false) by reflexivity.
  split; [exact Hperm|].
  exact (@permanent_failure_propagates _ Scenario.Math_random _ _ _ 2000%Q
           _ _ _ Hmax Hatt Hperm).
Defined.

(** Five failures under the default policy: five waits, the last one
    right before the throw. *)
Lemma exhaustion_waits_after_every_failure_witness :
  exists w',
    transient_failures Scenario.Math_random Scenario.ping 5 2000
      (Z.to_nat 5) 0 (Scenario.start []) w' /\
    retryWithBackoff Scenario.Math_random Scenario.ping 5 2000
      (Scenario.start [])
      = (Throw (ErrorObject (new_Error RetriesExhausted_message)), w') /\
    attempts (trace w') = 5 /\
    length (delays (trace w')) = 5.
Proof.
  eexists.
  match goal with
  | |- ?A /\ _ =>
      assert (Hfail : A) by (change (Z.to_nat 5) with 5; run_failures)
  end.
  split; [exact Hfail|].
  destruct (exhaustion_waits_after_every_failure Hfail)
    as (Hrun & Hcount & ds & Hds & Hlen & _).
  split; [exact Hrun|]. split; [exact Hcount|].
  rewrite Hds. exact Hlen.
Defined.

(** The jitter of the scripted host is one half: the waits of a run
    that exhausts the default policy are 2500, 4500, 8500, 16500 and
    32500 ms. *)
Lemma backoff_delay_interval_witness :
  (forall e, (0 <= fst (Scenario.Math_random e))%Q /\
             (fst (Scenario.Math_random e) < 1)%Q) /\
  (0 <= 2000)%Z /\
  exists qs,
    delays (trace (snd (retryWithBackoff Scenario.Math_random Scenario.ping
                          default_maxRetries default_initialDelay
                          (Scenario.start []))))
      = map Finite qs /\
    Sorted Qle qs.
Proof.
  assert (Hrange : forall e, (0 <= fst (Scenario.Math_random e))%Q /\
                             (fst (Scenario.Math_random e) < 1)%Q).
  { intros e. unfold Qle, Qlt. simpl. lia. }
  assert (Hbase : (0 <= 2000)%Z) by lia.
  split; [exact Hrange|]. split; [exact Hbase|].
  destruct (@backoff_delay_interval _ Scenario.Math_random _ Scenario.ping Hrange
              5 2000 (Scenario.start []) Hbase)
    as (_ & qs & Hds & Hsorted).
  exists qs. split; [exact Hds | exact Hsorted].
Defined.

(** No image and english: the empty URL is fetched. *)
Lemma text_only_branch_witness :
  exists rest,
    trace (snd (Scenario.analyze EmptyString "Any fracture?" "english"
                  (Scenario.start [])))
      = Host (Fetch EmptyString) :: rest.
Proof.
  destruct (text_only_branch Scenario.Math_random Scenario.model_generateContent
              Scenario.fetch Scenario.FileReader_readAsDataURL
              EmptyString "Any fracture?" "english" (Scenario.start []))
    as (_ & _ & Hfetch).
  apply Hfetch; reflexivity.
Defined.

(** An image request in Hindi. *)
Lemma image_request_parts_witness :
  let url := "https://example.org/xray.png"%string in
  let response := {| status := 200; blob := Normal Scenario.png |} in
  let w := Scenario.start [Scenario.answer "Normal chest."] in
  text_only url "hindi" = false /\
  Scenario.fetch url (env w) = (Normal response, env w) /\
  ok response = true /\
  blob response = Normal Scenario.png /\
  Scenario.FileReader_readAsDataURL Scenario.png (env w)
    = (Some "data:image/png;base64,iVBORw=="%string, env w) /\
  onloadend "data:image/png;base64,iVBORw==" = Normal "iVBORw=="%string /\
  exists first rest,
    model_requests (trace (snd (Scenario.analyze url "Any fracture?" "hindi" w)))
      = first :: rest /\
    Forall
      (eq [ TextPart "You are a medical professional analyzing an X-ray image. Please provide a detailed analysis based on the following prompt: Any fracture?. Provide the analysis in Hindi language.";
            InlineDataPart "image/png" "iVBORw==" ])
      (first :: rest).
Proof.
  intros url response w.
  assert (Hmode : text_only url "hindi" = false) by reflexivity.
  assert (Hfetch : Scenario.fetch url (env w) = (Normal response, env w))
    by reflexivity.
  assert (Hok : ok response = true) by reflexivity.
  assert (Hblob : blob response = Normal Scenario.png) by reflexivity.
  assert (Hread : Scenario.FileReader_readAsDataURL Scenario.png (env w)
                  = (Some "data:image/png;base64,iVBORw=="%string, env w))
    by reflexivity.
  assert (Hload : onloadend "data:image/png;base64,iVBORw=="
                  = Normal "iVBORw=="%string) by reflexivity.
  repeat (split; [assumption|]).
  destruct (@image_request_parts _ Scenario.Math_random
              Scenario.model_generateContent Scenario.fetch
              Scenario.FileReader_readAsDataURL url "Any fracture?" "hindi" w
              response _ _ Scenario.png _ _
              Hmode Hfetch Hok Hblob Hread Hload)
    as (directive & Hhindi & _ & _ & first & rest & Hreq & Hall).
  rewrite (Hhindi eq_refl) in Hall.
  exists first, rest. split; [exact Hreq|exact Hall].
Defined.

(** A missing image: status 404, no model call. *)
Lemma fetch_failure_before_model_witness :
  let url := "https://example.org/missing.png"%string in
  let response := {| status := 404; blob := Normal Scenario.empty_png |} in
  let w := Scenario.start [Scenario.answer "Normal chest."] in
  text_only url "english" = false /\
  Scenario.fetch url (env w) = (Normal response, env w) /\
  ok response = false /\
  fst (Scenario.analyze url "Any fracture?" "english" w)
    = Throw (ErrorObject (new_Error "Failed to fetch image")) /\
  model_calls (trace (snd (Scenario.analyze url "Any fracture?" "english" w))) = 0.
Proof.
  intros url response w.
  assert (Hmode : text_only url "english" = false) by reflexivity.
  assert (Hfetch : Scenario.fetch url (env w) = (Normal response, env w))
    by reflexivity.
  assert (Hok : ok response = false) by reflexivity.
  repeat (split; [assumption|]).
  destruct (@fetch_failure_before_model _ Scenario.Math_random
              Scenario.model_generateContent Scenario.fetch
              Scenario.FileReader_readAsDataURL url "Any fracture?" "english" w
              response _ Hmode Hfetch Hok) as (Hrun & Hcalls & _).
  unfold Scenario.analyze. rewrite Hrun. split; [reflexivity|exact Hcalls].
Defined.

(** A translation request against a service that stays overloaded: the
    caller receives the message of the retrier. *)
Lemma exhaustion_surfaces_retrier_message_witness :
  exists w1,
    "hindi"%string <> "english"%string /\
    transient_failures Scenario.Math_random
      (generateContent Scenario.model_generateContent
         [TextPart (text_only_instruction "Translate." "hindi")])
      default_maxRetries default_initialDelay 5 0 (Scenario.start []) w1 /\
    fst (Scenario.analyze EmptyString "Translate." "hindi" (Scenario.start []))
      = Throw (ErrorObject (new_Error
          "Maximum retries reached. The service is currently unavailable. Please try again later.")).
Proof.
  eexists.
  assert (Hlang : "hindi"%string <> "english"%string) by discriminate.
  split; [exact Hlang|].
  match goal with |- ?A /\ _ => assert (Hfail : A) by run_failures end.
  split; [exact Hfail|].
  destruct (@exhaustion_surfaces_retrier_message _ Scenario.Math_random
              Scenario.model_generateContent Scenario.fetch
              Scenario.FileReader_readAsDataURL "Translate." "hindi" _ _
              Hlang Hfail)
    as [Hrun _].
  unfold Scenario.analyze. rewrite Hrun. reflexivity.
Defined.

(** * Further properties *)

(** ** The retrier, whatever the operation does *)

Section RetrierBounds.

Variable E : Type.
Variable Math_random : E -> Q * E.
Variable T : Type.
Variable operation : Op E T.
Variable maxRetries : Z.
Variable initialDelay : Q.

Local Abbreviation loop := (retry_loop Math_random operation maxRetries initialDelay).
Local Abbreviation failures :=
  (transient_failures Math_random operation maxRetries initialDelay).

(** A value thrown by the loop is never classified transient. *)
Lemma retry_loop_throw_not_transient (retries : Z) (lastError : option JsError)
  (w : World E) (v : JsValue) :
  fst (loop retries lastError w) = Throw v -> is_transient v = false.
Proof.
  revert v.
  apply (@retry_loop_run_ind E Math_random T operation maxRetries initialDelay
           (fun _ _ res => forall v, fst res = Throw v -> is_transient v = false)).
  - intros r w0 _ v Hv. simpl in Hv. injection Hv as <-. reflexivity.
  - intros r w0 x w1 _ _ v Hv. discriminate Hv.
  - intros r w0 error w1 _ _ Hperm v Hv. simpl in Hv. injection Hv as <-.
    exact Hperm.
  - intros r w0 error w1 w2 res _ _ _ _ IH. exact IH.
Qed.

(** What a run of the loop adds to the trace: at most one attempt per
    unit of remaining budget, a wait after each attempt but the last
    when it ends on an attempt. *)
Lemma retry_loop_counts (retries : Z) (lastError : option JsError) (w : World E) :
  exists evs,
    trace (snd (loop retries lastError w)) = trace w ++ evs /\
    attempts evs <= Z.to_nat (maxRetries - retries) /\
    length (delays evs) <= attempts evs /\
    (forall v, fst (loop retries lastError w) = Normal v ->
               attempts evs = S (length (delays evs))).
Proof.
  apply (@retry_loop_run_ind E Math_random T operation maxRetries initialDelay
           (fun retries w res =>
              exists evs,
                trace (snd res) = trace w ++ evs /\
                attempts evs <= Z.to_nat (maxRetries - retries) /\
                length (delays evs) <= attempts evs /\
                (forall v, fst res = Normal v ->
                           attempts evs = S (length (delays evs))))).
  - intros r w0 _. exists []. simpl. rewrite app_nil_r.
    repeat split; try lia; try (intros v Hv; discriminate Hv).
  - intros r w0 v w1 Hlt Hatt.
    rewrite attempt_run in Hatt. injection Hatt as _ <-. simpl.
    rewrite <- app_assoc. eexists. split; [reflexivity|].
    simpl. rewrite attempts_host, delays_host. simpl.
    repeat split; try lia.
  - intros r w0 error w1 Hlt Hatt _.
    rewrite attempt_run in Hatt. injection Hatt as _ <-. simpl.
    rewrite <- app_assoc. eexists. split; [reflexivity|].
    simpl. rewrite attempts_host, delays_host. simpl.
    repeat split; try lia; try (intros v Hv; discriminate Hv).
  - intros r w0 error w1 w2 res Hlt Hatt _ Hpause
      (evs & Hevs & Hatts & Hdel & Hok).
    rewrite attempt_run in Hatt. injection Hatt as _ <-.
    rewrite backoff_run in Hpause. injection Hpause as <-.
    simpl in Hevs. rewrite <- !app_assoc in Hevs. simpl in Hevs.
    eexists. split; [exact Hevs|].
    simpl. rewrite !attempts_app, !delays_app, attempts_host, delays_host.
    simpl. repeat split; try lia.
    intros v Hv. rewrite (Hok v Hv). reflexivity.
Qed.

(** X1 (no budget): with an attempt budget of zero or less the
    operation is never invoked; the exhaustion error is thrown at once
    and nothing else happens. *)
Theorem retry_zero_budget (w : World E) :
  (maxRetries <= 0)%Z ->
  retryWithBackoff Math_random operation maxRetries initialDelay w
    = (Throw (ErrorObject (new_Error RetriesExhausted_message)), w).
Proof.
  intros Hmax. unfold retryWithBackoff. rewrite retry_loop_step.
  destruct (Z.ltb_spec 0 maxRetries); [lia|reflexivity].
Qed.

(** X2 (a permanent failure in the middle): when [k] transient
    failures, [k] below the budget, are followed by a throw that is not
    classified transient, that value is thrown as it is, in the world
    that attempt left: [k + 1] attempts and [k] waits, none after the
    last failure. *)
Theorem permanent_after_transient (k : nat) (error : JsValue)
  (w w1 w2 : World E) :
  (Z.of_nat k < maxRetries)%Z ->
  failures k 0 w w1 ->
  attempt operation w1 = (Throw error, w2) ->
  is_transient error = false ->
  retryWithBackoff Math_random operation maxRetries initialDelay w
    = (Throw error, w2) /\
  attempts (trace w2) = attempts (trace w) + k + 1 /\
  length (delays (trace w2)) = length (delays (trace w)) + k.
Proof.
  intros Hk Hfail Hatt Hperm. split; [|split].
  - unfold retryWithBackoff.
    destruct (retry_loop_after_failures Hfail ltac:(lia) None) as [le Heq].
    rewrite Heq, retry_loop_step.
    destruct (Z.ltb_spec (0 + Z.of_nat k) maxRetries) as [_|]; [|lia].
    rewrite Hatt, Hperm. reflexivity.
  - destruct (transient_failures_trace Hfail) as [Hcount _].
    rewrite attempt_run in Hatt. injection Hatt as _ <-. simpl.
    rewrite !attempts_app, attempts_host. simpl. lia.
  - destruct (transient_failures_trace Hfail) as (_ & ds & Hds & Hlen & _).
    rewrite attempt_run in Hatt. injection Hatt as _ <-. simpl.
    rewrite !delays_app, delays_host. simpl. rewrite !app_nil_r, Hds.
    rewrite length_app. lia.
Qed.

(** X3 (no transient error gets out): whatever the operation does, a
    value thrown by the retrier is not classified transient: it is the
    exhaustion error or a value the operation threw that the classifier
    rejects. *)
Theorem retry_never_throws_transient (w : World E) (v : JsValue) :
  fst (retryWithBackoff Math_random operation maxRetries initialDelay w)
    = Throw v ->
  is_transient v = false.
Proof. apply retry_loop_throw_not_transient. Qed.

(** X4 (the budget is a bound): whatever the operation does, the
    retrier only extends the trace, invokes the operation at most
    [maxRetries] times, and never waits more often than it has
    attempted; when it returns a value it has waited once less than it
    has attempted, so nothing follows the successful attempt. *)
Theorem retry_attempts_bounded (w : World E) :
  exists evs,
    trace (snd (retryWithBackoff Math_random operation maxRetries
                  initialDelay w)) = trace w ++ evs /\
    attempts evs <= Z.to_nat maxRetries /\
    length (delays evs) <= attempts evs /\
    (forall v,
       fst (retryWithBackoff Math_random operation maxRetries initialDelay w)
         = Normal v ->
       attempts evs = S (length (delays evs))).
Proof.
  unfold retryWithBackoff.
  destruct (retry_loop_counts 0 None w) as (evs & Hevs & Hatts & Hdel & Hok).
  exists evs. rewrite Z.sub_0_r in Hatts. auto.
Qed.

End RetrierBounds.

(** ** The time spent waiting *)

(** At most five waits, the [i]-th at most [2000 * 2^i + 1000], add up
    to at most [2000 * 31 + 5 * 1000]. *)
Lemma total_wait_default (qs : list Q) :
  length qs <= 5 ->
  (forall i q, nth_error qs i = Some q ->
     (inject_Z (2000 * 2 ^ Z.of_nat i) <= q)%Q /\
     (q <= inject_Z (2000 * 2 ^ Z.of_nat i + 1000))%Q) ->
  (total_wait qs <= 67000)%Q.
Proof.
  intros Hlen Hin.
  destruct qs as [|q0 [|q1 [|q2 [|q3 [|q4 [|q5 qs]]]]]];
    try (simpl in Hlen; lia);
    try pose proof (proj2 (Hin 0 _ eq_refl)) as H0;
    try pose proof (proj2 (Hin 1 _ eq_refl)) as H1;
    try pose proof (proj2 (Hin 2 _ eq_refl)) as H2;
    try pose proof (proj2 (Hin 3 _ eq_refl)) as H3;
    try pose proof (proj2 (Hin 4 _ eq_refl)) as H4;
    repeat match goal with
    | H : (_ <= inject_Z ?z)%Q |- _ =>
        let v := eval vm_compute in (inject_Z z) in
        change (inject_Z z) with v in H
    end;
    unfold total_wait; simpl; lra.
Qed.

Section WaitingTime.

Variable E : Type.
Variable Math_random : E -> Q * E.
Variable T : Type.
Variable operation : Op E T.

Hypothesis Math_random_range :
  forall e, (0 <= fst (Math_random e))%Q /\ (fst (Math_random e) < 1)%Q.

(** X5 (worst-case waiting time): under every policy a run waits at
    most [maxRetries] times; under the default policy (5 attempts,
    2000 ms) every wait is a finite number and the waits of a run add
    up to at most 67000 ms, whatever the operation does. *)
Theorem total_wait_bounded (w : World E) :
  (forall (maxRetries : Z) (initialDelay : Q),
     exists ds,
       delays (trace (snd (retryWithBackoff Math_random operation maxRetries
                             initialDelay w)))
         = delays (trace w) ++ ds /\
       length ds <= Z.to_nat maxRetries) /\
  (exists qs,
     delays (trace (snd (retryWithBackoff Math_random operation
                           default_maxRetries default_initialDelay w)))
       = delays (trace w) ++ map Finite qs /\
     (total_wait qs <= 67000)%Q).
Proof.
  split.
  - intros m base. unfold retryWithBackoff.
    destruct (retry_loop_delays Math_random operation m base 0 None w)
      as (ds & Hds & Hlen & _).
    exists ds. split; [exact Hds | lia].
  - destruct (@default_policy_delays _ Math_random _ operation
                Math_random_range w)
      as (qs & Hds & Hlen & Hin).
    exists qs. split; [exact Hds|].
    apply total_wait_default; assumption.
Qed.

End WaitingTime.

(** ** The Connectivity Prober *)

Section ProberProperties.

Variable E : Type.
Variable model_generateContent :
  list Part -> E -> Completion (option GenerateContentResponse) * E.

(** X6 (the probe): whatever the service does, the probe calls the
    model exactly once, on the fixed greeting, outside the retrier: no
    attempt is counted and no wait is made, a transient error
    included.  Anything the call throws is logged and replaced by a
    fresh [Error] with the connectivity message; otherwise the result
    is whether a response object came back, and a missing one gives
    [false] without a throw. *)
Theorem checkApiConnection_contract (w : World E) :
  let request := [TextPart "Hello, are you working?"] in
  let answer := model_generateContent request (env w) in
  let run := checkApiConnection model_generateContent w in
  model_requests (trace (snd run)) = model_requests (trace w) ++ [request] /\
  attempts (trace (snd run)) = attempts (trace w) /\
  delays (trace (snd run)) = delays (trace w) /\
  match fst answer with
  | Throw v =>
      run = (Throw (ErrorObject (new_Error "Failed to connect to the Gemini API")),
             {| env := snd answer;
                trace := trace w ++ [Host (GenerateContent request);
                                     ConsoleError v] |})
  | Normal response =>
      run = (Normal (match response with Some _ => true | None => false end),
             {| env := snd answer;
                trace := trace w ++ [Host (GenerateContent request)] |})
  end.
Proof.
  intros request answer run. subst run answer.
  unfold checkApiConnection, try_catch, perform, probe, connection_failed,
    bind, emit, throw.
  fold request.
  destruct (model_generateContent request (env w)) as [[[response|]|v] e'];
    simpl; rewrite <- ?app_assoc; simpl;
    rewrite model_requests_app, attempts_app, delays_app; simpl;
    rewrite !Nat.add_0_r, !app_nil_r; auto.
Qed.

End ProberProperties.

(** ** The encoder on every encoded output *)

(** The text before the first separator is determined. *)
Lemma first_separator_unique (sep : ascii) (pre pre' rest rest' : string) :
  free_of sep pre = true -> free_of sep pre' = true ->
  (pre ++ String sep rest)%string = (pre' ++ String sep rest')%string ->
  pre = pre' /\ rest = rest'.
Proof.
  revert pre'. induction pre as [|c pre IH]; intros [|c' pre'] Hp Hp' Heq;
    simpl in *.
  - injection Heq as ->. auto.
  - injection Heq as <- _. rewrite Ascii.eqb_refl in Hp'. discriminate Hp'.
  - injection Heq as -> _. rewrite Ascii.eqb_refl in Hp. discriminate Hp.
  - injection Heq as <- Heq.
    destruct (Ascii.eqb c sep); [discriminate Hp|]. simpl in *.
    destruct (IH pre' Hp Hp' Heq) as [-> ->]. auto.
Qed.

(** The first segment of a split is empty exactly when the string is
    empty or starts with the separator. *)
Lemma js_split_head_empty (sep : ascii) (s : string) :
  falsy (hd_error (js_split sep s)) = true <->
  s = EmptyString \/ exists rest, s = String sep rest.
Proof.
  destruct s as [|c s]; simpl.
  - split; auto.
  - destruct (Ascii.eqb_spec c sep) as [->|Hne]; simpl.
    + split; eauto.
    + destruct (js_split sep s) as [|seg segs]; simpl.
      * split; [discriminate|]. intros [H|[rest H]]; [discriminate H|].
        injection H as -> _. contradiction.
      * split; [discriminate|]. intros [H|[rest H]]; [discriminate H|].
        injection H as -> _. contradiction.
Qed.

Section EncoderOnEveryOutput.

Variable E : Type.
Variable FileReader_readAsDataURL : Blob -> E -> option string * E.

Local Abbreviation encode := (blobToBase64 FileReader_readAsDataURL).

(** X7 (when the encoder rejects): the encoder rejects exactly when the
    resource cannot be read, or the encoded output has no comma, or its
    first comma is the last character or is followed at once by another
    comma. *)
Theorem blobToBase64_rejects_exactly (b : Blob) (w : World E) :
  let result := fst (FileReader_readAsDataURL b (env w)) in
  throws (fst (encode b w)) = true <->
  (result = None \/
   exists s, result = Some s /\
     (free_of "," s = true \/
      exists pre rest,
        s = (pre ++ String "," rest)%string /\ free_of "," pre = true /\
        (rest = EmptyString \/ exists rest', rest = String "," rest'))).
Proof.
  intros result. subst result. rewrite blobToBase64_run. simpl.
  destruct (fst (FileReader_readAsDataURL b (env w))) as [s|]; simpl.
  2:{ split; auto. }
  unfold onloadend.
  destruct (free_of "," s) eqn:Hfree.
  - rewrite (@js_split_free _ _ Hfree). simpl. split; [|reflexivity].
    intros _. right. exists s. auto.
  - destruct (proj1 (free_of_spec "," s) Hfree) as (pre & rest & -> & Hpre).
    rewrite (@js_split_first _ _ rest Hpre).
    change (nth_error (pre :: js_split "," rest) 1)
      with (hd_error (js_split "," rest)).
    pose proof (js_split_head_empty "," rest) as Hhead.
    destruct (falsy (hd_error (js_split "," rest))) eqn:Hfalsy.
    + simpl. split; [|reflexivity]. intros _. right.
      eexists. split; [reflexivity|]. right.
      exists pre, rest. split; [reflexivity|]. split; [exact Hpre|].
      apply Hhead. reflexivity.
    + assert (Hok : throws
                (match hd_error (js_split "," rest) with
                 | Some payload => Normal payload
                 | None => Throw (ErrorObject (new_Error ConvertError_message))
                 end) = false).
      { destruct (hd_error (js_split "," rest)); [reflexivity|discriminate]. }
      rewrite Hok. split; [discriminate|].
      intros [Hnone|(s' & Hs & [Hf|(pre' & rest' & Heq & Hpre' & Hrest')])].
      * discriminate Hnone.
      * injection Hs as <-. rewrite Hf in Hfree. discriminate Hfree.
      * injection Hs as <-.
        destruct (@first_separator_unique _ _ _ _ _ Hpre Hpre' Heq) as [_ <-].
        apply Hhead in Hrest'. discriminate Hrest'.
Qed.

(** X8 (a second comma cuts the payload): when the encoded output has
    a second comma, the encoder returns only the text between the
    first two commas, provided it is not empty, and drops the rest. *)
Theorem blobToBase64_second_comma (b : Blob) (w : World E)
  (pre mid rest : string) (e' : E) :
  FileReader_readAsDataURL b (env w)
    = (Some (pre ++ String "," (mid ++ String "," rest))%string, e') ->
  free_of "," pre = true -> free_of "," mid = true -> mid <> EmptyString ->
  encode b w
    = (Normal mid,
       {| env := e'; trace := trace w ++ [Host (ReadAsDataURL b)] |}).
Proof.
  intros Hread Hpre Hmid Hne. rewrite blobToBase64_run, Hread. simpl.
  unfold onloadend.
  rewrite (@js_split_first _ _ _ Hpre), (@js_split_first _ _ rest Hmid).
  simpl. destruct mid; [contradiction|reflexivity].
Qed.

End EncoderOnEveryOutput.

(** ** The orchestrator on every host *)

Section OrchestratorOnEveryHost.

Variable E : Type.
Variable Math_random : E -> Q * E.
Variable model_generateContent :
  list Part -> E -> Completion (option GenerateContentResponse) * E.
Variable fetch : string -> E -> Completion Response * E.
Variable FileReader_readAsDataURL : Blob -> E -> option string * E.

Local Abbreviation analyze :=
  (analyzeXrayImage Math_random model_generateContent fetch
     FileReader_readAsDataURL).
Local Abbreviation body :=
  (analyze_body Math_random model_generateContent fetch
     FileReader_readAsDataURL).
Local Abbreviation generate := (generateContent model_generateContent).

(** A run of the loop on the closure calls the model at most once per
    unit of remaining budget and waits no more often than it calls. *)
Lemma retry_loop_generate_counts (parts : list Part) (m : Z) (base : Q)
  (retries : Z) (lastError : option JsError) (w : World E) :
  exists evs,
    trace (snd (retry_loop Math_random (generate parts) m base
                  retries lastError w)) = trace w ++ evs /\
    model_calls evs <= Z.to_nat (m - retries) /\
    length (delays evs) <= model_calls evs /\
    fetched evs = [].
Proof.
  apply (@retry_loop_run_ind E Math_random string (generate parts) m base
           (fun retries w res =>
              exists evs,
                trace (snd res) = trace w ++ evs /\
                model_calls evs <= Z.to_nat (m - retries) /\
                length (delays evs) <= model_calls evs /\
                fetched evs = [])).
  - intros r w0 _. exists []. simpl. rewrite app_nil_r.
    repeat split; lia.
  - intros r w0 v w1 Hlt Hatt.
    rewrite attempt_run, generateContent_events in Hatt.
    injection Hatt as _ <-. simpl. rewrite <- app_assoc.
    eexists. split; [reflexivity|]. simpl. repeat split; lia.
  - intros r w0 error w1 Hlt Hatt _.
    rewrite attempt_run, generateContent_events in Hatt.
    injection Hatt as _ <-. simpl. rewrite <- app_assoc.
    eexists. split; [reflexivity|]. simpl. repeat split; lia.
  - intros r w0 error w1 w2 res Hlt Hatt _ Hpause
      (evs & Hevs & Hcalls & Hdel & Hf).
    rewrite attempt_run, generateContent_events in Hatt.
    injection Hatt as _ <-.
    rewrite backoff_run in Hpause. injection Hpause as <-.
    simpl in Hevs. rewrite <- !app_assoc in Hevs. simpl in Hevs.
    eexists. split; [exact Hevs|]. simpl. repeat split; try lia.
    exact Hf.
Qed.

(** What the [try] block adds to the trace. *)
Lemma analyze_body_counts (imageUrl prompt language : string) (w : World E) :
  exists evs,
    trace (snd (body imageUrl prompt language w)) = trace w ++ evs /\
    model_calls evs <= 5 /\
    length (delays evs) <= model_calls evs /\
    length (fetched evs) <= 1 /\
    (text_only imageUrl language = true -> fetched evs = []).
Proof.
  unfold analyze_body.
  destruct (text_only imageUrl language) eqn:Hmode.
  - unfold retryWithBackoff.
    match goal with
    | |- context [retry_loop _ (generate ?parts) ?m ?b ?r ?le ?w0] =>
        destruct (retry_loop_generate_counts parts m b r le w0)
          as (evs & Hevs & Hcalls & Hdel & Hf)
    end.
    exists evs. rewrite Hf. simpl in *. repeat split; auto; lia.
  - unfold bind at 1. unfold perform, fetch_url.
    destruct (fetch imageUrl (env w)) as [[response|v] e1]; simpl.
    2:{ eexists. split; [reflexivity|]. simpl.
        repeat split; try lia; try discriminate. }
    destruct (ok response); simpl.
    2:{ eexists. split; [reflexivity|]. simpl.
        repeat split; try lia; try discriminate. }
    unfold bind at 1. unfold await.
    destruct (blob response) as [imageBlob|v]; simpl.
    2:{ eexists. split; [reflexivity|]. simpl.
        repeat split; try lia; try discriminate. }
    unfold bind at 1. rewrite blobToBase64_run. simpl.
    destruct (settle _) as [base64Image|v]; simpl.
    2:{ rewrite <- app_assoc. eexists. split; [reflexivity|]. simpl.
        repeat split; try lia; try discriminate. }
    unfold retryWithBackoff.
    match goal with
    | |- context [retry_loop _ (generate ?parts) ?m ?b ?r ?le ?w0] =>
        destruct (retry_loop_generate_counts parts m b r le w0)
          as (evs & Hevs & Hcalls & Hdel & Hf)
    end.
    rewrite Hevs. simpl. rewrite <- !app_assoc. simpl.
    eexists. split; [reflexivity|]. simpl. rewrite Hf. simpl in *.
    repeat split; try lia; try discriminate.
Qed.

(** The value thrown by the function is a fresh [Error]. *)
Lemma analyze_throws_Error (imageUrl prompt language : string) (w : World E)
  (v : JsValue) :
  fst (analyze imageUrl prompt language w) = Throw v ->
  exists msg, v = ErrorObject (new_Error msg).
Proof.
  unfold analyzeXrayImage, try_catch.
  destruct (body imageUrl prompt language w) as [[s|v0] w1]; simpl.
  - discriminate.
  - rewrite normalize_run. simpl. intros H. injection H as <-. eauto.
Qed.

(** X9 (the cost of one call): whatever the host does and whatever the
    arguments are, one call of the function only extends the trace,
    fetches at most once (never in the text-only branch), calls the
    model at most five times and waits at most once per model call. *)
Theorem analyze_call_budget (imageUrl prompt language : string) (w : World E) :
  exists evs,
    trace (snd (analyze imageUrl prompt language w)) = trace w ++ evs /\
    model_calls evs <= 5 /\
    length (delays evs) <= model_calls evs /\
    length (fetched evs) <= 1 /\
    (text_only imageUrl language = true -> fetched evs = []).
Proof.
  rewrite analyze_trace.
  destruct (analyze_body_counts imageUrl prompt language w)
    as (evs & Hevs & Hcalls & Hdel & Hf & Htext).
  rewrite Hevs, <- app_assoc.
  eexists. split; [reflexivity|].
  rewrite model_calls_app, delays_app, fetched_app.
  destruct (fst (body imageUrl prompt language w)); simpl;
    rewrite ?app_nil_r, ?Nat.add_0_r; auto.
Qed.

(** X10 (when the first tier of the [catch] block fires): whenever
    the [try] block throws a value classified transient, the run is
    outside the text-only branch and the block has made no attempt and
    no call of the model; [analyzeXrayImage] then logs the value and
    throws a new Error with the service-unavailable message. *)
Theorem transient_only_before_model (imageUrl prompt language : string)
  (w w1 : World E) (v : JsValue) :
  body imageUrl prompt language w = (Throw v, w1) ->
  is_transient v = true ->
  text_only imageUrl language = false /\
  model_calls (trace w1) = model_calls (trace w) /\
  attempts (trace w1) = attempts (trace w) /\
  analyze imageUrl prompt language w
    = (Throw (ErrorObject (new_Error ServiceUnavailable_message)),
       {| env := env w1; trace := trace w1 ++ [ConsoleError v] |}).
Proof.
  intros Hbody Htr.
  assert (Hretry : forall parts w0 w',
            retryWithBackoff Math_random (generate parts) default_maxRetries
              default_initialDelay w0 = (Throw v, w') -> False).
  { intros parts w0 w' Hrun.
    assert (Hv : is_transient v = false).
    { apply (@retry_loop_throw_not_transient E Math_random string
               (generate parts) default_maxRetries default_initialDelay
               0 None w0).
      unfold retryWithBackoff in Hrun. rewrite Hrun. reflexivity. }
    rewrite Hv in Htr. discriminate Htr. }
  assert (Hlast : analyze imageUrl prompt language w
            = (Throw (ErrorObject (new_Error ServiceUnavailable_message)),
               {| env := env w1; trace := trace w1 ++ [ConsoleError v] |})).
  { unfold analyzeXrayImage, try_catch. rewrite Hbody, normalize_run.
    destruct v as [e|r]; simpl in Htr; [rewrite Htr; reflexivity|discriminate]. }
  unfold analyze_body in Hbody.
  destruct (text_only imageUrl language) eqn:Hmode.
  { exfalso. eapply Hretry, Hbody. }
  split; [reflexivity|].
  unfold bind at 1 in Hbody. unfold perform, fetch_url in Hbody.
  destruct (fetch imageUrl (env w)) as [[response|v0] e1]; simpl in Hbody.
  2:{ injection Hbody as _ <-. simpl.
      rewrite model_calls_app, attempts_app. simpl.
      rewrite !Nat.add_0_r. auto. }
  destruct (ok response); simpl in Hbody.
  2:{ injection Hbody as _ <-. simpl.
      rewrite model_calls_app, attempts_app. simpl.
      rewrite !Nat.add_0_r. auto. }
  unfold bind at 1 in Hbody. unfold await in Hbody.
  destruct (blob response) as [imageBlob|v0]; simpl in Hbody.
  2:{ injection Hbody as _ <-. simpl.
      rewrite model_calls_app, attempts_app. simpl.
      rewrite !Nat.add_0_r. auto. }
  unfold bind at 1 in Hbody. rewrite blobToBase64_run in Hbody.
  simpl in Hbody.
  destruct (settle _) as [base64Image|v0]; simpl in Hbody.
  2:{ injection Hbody as _ <-. simpl.
      rewrite !model_calls_app, !attempts_app. simpl.
      rewrite !Nat.add_0_r. auto. }
  exfalso. eapply Hretry, Hbody.
Qed.

End OrchestratorOnEveryHost.

Section OrchestratorRuns.

Variable E : Type.
Variable Math_random : E -> Q * E.
Variable model_generateContent :
  list Part -> E -> Completion (option GenerateContentResponse) * E.
Variable fetch : string -> E -> Completion Response * E.
Variable FileReader_readAsDataURL : Blob -> E -> option string * E.

Local Abbreviation analyze :=
  (analyzeXrayImage Math_random model_generateContent fetch
     FileReader_readAsDataURL).
Local Abbreviation body :=
  (analyze_body Math_random model_generateContent fetch
     FileReader_readAsDataURL).
Local Abbreviation generate := (generateContent model_generateContent).

(** X11 (an empty response is final): when the model answers without
    a response object, the closure throws the empty-response error,
    which the retrier does not retry: for every request and every
    positive budget there is one model call and no wait; in the
    text-only branch the caller gets a fresh [Error] with that
    message. *)
Theorem empty_response_not_retried (parts : list Part) (m : Z) (base : Q)
  (w : World E) (e' : E) :
  (0 < m)%Z ->
  model_generateContent parts (env w) = (Normal None, e') ->
  let failure := ErrorObject (new_Error "No response from Gemini API") in
  let w1 := {| env := e';
               trace := trace w ++ [Attempt; Host (GenerateContent parts)] |} in
  retryWithBackoff Math_random (generate parts) m base w = (Throw failure, w1) /\
  forall prompt language,
    parts = [TextPart (text_only_instruction prompt language)] ->
    language <> "english"%string ->
    analyze EmptyString prompt language w
      = (Throw failure,
         {| env := e'; trace := trace w1 ++ [ConsoleError failure] |}).
Proof.
  intros Hm Hanswer failure w1.
  assert (Hrun : retryWithBackoff Math_random (generate parts) m base w
                 = (Throw failure, w1)).
  { unfold retryWithBackoff. rewrite retry_loop_step.
    destruct (Z.ltb_spec 0 m) as [_|]; [|lia].
    rewrite attempt_run. unfold generateContent. rewrite Hanswer. simpl.
    subst w1. rewrite <- app_assoc. reflexivity. }
  split; [exact Hrun|].
  intros prompt language -> Hlang.
  assert (Hmode : text_only EmptyString language = true)
    by (apply text_only_spec; auto).
  unfold analyzeXrayImage, try_catch, analyze_body. rewrite Hmode.
  unfold retryWithBackoff. rewrite retry_loop_step.
  change (0 <? default_maxRetries)%Z with true. cbv iota.
  rewrite attempt_run. unfold generateContent. rewrite Hanswer. simpl.
  rewrite normalize_run. simpl. subst w1. simpl.
  rewrite <- !app_assoc. reflexivity.
Qed.

(** The ways through the image branch: it stops before the retrier
    with the trace extended by the fetch and at most the read, or it
    enters the retrier on an encoded image. *)
Lemma image_body_cases (imageUrl prompt language : string) (w : World E) :
  text_only imageUrl language = false ->
  (exists v w1 evs,
     body imageUrl prompt language w = (Throw v, w1) /\
     trace w1 = trace w ++ evs /\ model_calls evs = 0) \/
  (exists response e1 imageBlob dataUrl e2 base64Image,
     fetch imageUrl (env w) = (Normal response, e1) /\
     ok response = true /\
     blob response = Normal imageBlob /\
     FileReader_readAsDataURL imageBlob e1 = (Some dataUrl, e2) /\
     onloadend dataUrl = Normal base64Image).
Proof.
  intros Hmode. unfold analyze_body. rewrite Hmode.
  unfold bind at 1. unfold perform, fetch_url.
  destruct (fetch imageUrl (env w)) as [[response|v] e1]; simpl.
  2:{ left. do 3 eexists. split; [reflexivity|]. simpl. split; reflexivity. }
  destruct (ok response) eqn:Hok; simpl.
  2:{ left. do 3 eexists. split; [reflexivity|]. simpl. split; reflexivity. }
  unfold bind at 1. unfold await.
  destruct (blob response) as [imageBlob|v] eqn:Hblob; simpl.
  2:{ left. do 3 eexists. split; [reflexivity|]. simpl. split; reflexivity. }
  unfold bind at 1. rewrite blobToBase64_run. simpl.
  destruct (FileReader_readAsDataURL imageBlob e1) as [result e2] eqn:Hread.
  simpl.
  destruct result as [dataUrl|]; simpl.
  2:{ left. do 3 eexists. split; [reflexivity|]. simpl.
      rewrite <- app_assoc. split; reflexivity. }
  destruct (onloadend dataUrl) as [base64Image|v] eqn:Hload; simpl.
  2:{ left. do 3 eexists. split; [reflexivity|]. simpl.
      rewrite <- app_assoc. split; reflexivity. }
  right. exists response, e1, imageBlob, dataUrl, e2, base64Image. auto.
Qed.

(** X12 (no model call without an encoded image): outside the
    text-only branch, a run in which the model is called at all is a
    run in which the fetch answered with a success status, the body was
    read as a blob, and the encoder produced a payload. *)
Theorem model_called_only_after_encoding (imageUrl prompt language : string)
  (w : World E) :
  text_only imageUrl language = false ->
  model_calls (trace (snd (analyze imageUrl prompt language w)))
    <> model_calls (trace w) ->
  exists response e1 imageBlob dataUrl e2 base64Image,
    fetch imageUrl (env w) = (Normal response, e1) /\
    ok response = true /\
    blob response = Normal imageBlob /\
    FileReader_readAsDataURL imageBlob e1 = (Some dataUrl, e2) /\
    onloadend dataUrl = Normal base64Image.
Proof.
  intros Hmode Hcalls.
  destruct (image_body_cases imageUrl prompt language w Hmode)
    as [(v & w1 & evs & Hbody & Htrace & Hnone)|Hencoded];
    [|exact Hencoded].
  exfalso. apply Hcalls.
  rewrite analyze_trace, Hbody. simpl.
  rewrite Htrace, !model_calls_app, Hnone. simpl. lia.
Qed.

(** X13 (the answer comes back as it is): in the text-only branch, when
    fewer than five transient failures are followed by an answer whose
    [text()] gives [s], the function returns [s] in the world that
    model call left: nothing is logged by the [catch] block. *)
Theorem analyze_returns_model_text (prompt language s : string) (k : nat)
  (w w1 : World E) (e2 : E) :
  language <> "english"%string ->
  k < 5 ->
  let request := [TextPart (text_only_instruction prompt language)] in
  transient_failures Math_random (generate request)
    default_maxRetries default_initialDelay k 0 w w1 ->
  model_generateContent request (env w1)
    = (Normal (Some {| text := Normal s |}), e2) ->
  analyze EmptyString prompt language w
    = (Normal s,
       {| env := e2;
          trace := trace w1 ++ [Attempt; Host (GenerateContent request)] |}).
Proof.
  intros Hlang Hk request Hfail Hanswer.
  assert (Hmode : text_only EmptyString language = true)
    by (apply text_only_spec; auto).
  unfold analyzeXrayImage, try_catch, analyze_body. rewrite Hmode.
  fold request. unfold retryWithBackoff.
  destruct (retry_loop_after_failures Hfail
              ltac:(unfold default_maxRetries; lia) None) as [le Heq].
  rewrite Heq, retry_loop_step.
  destruct (Z.ltb_spec (0 + Z.of_nat k) default_maxRetries) as [_|Hge];
    [|unfold default_maxRetries in Hge; lia].
  rewrite attempt_run. unfold generateContent. rewrite Hanswer. simpl.
  rewrite <- app_assoc. reflexivity.
Qed.

End OrchestratorRuns.

(** ** White space *)

Lemma trimStart_blank (s : string) :
  blank s = true -> trimStart s = EmptyString.
Proof.
  induction s as [|c s IH]; simpl; [reflexivity|].
  destruct (isWhiteSpace c); simpl; [exact IH|discriminate].
Qed.

Lemma trimStart_not_blank (s : string) :
  blank s = false ->
  exists c rest, trimStart s = String c rest /\ isWhiteSpace c = false.
Proof.
  induction s as [|c s IH]; simpl; [discriminate|].
  destruct (isWhiteSpace c) eqn:Hc; simpl; [exact IH|].
  intros _. exists c, s. auto.
Qed.

Lemma trimEnd_keeps_first (c : ascii) (s : string) :
  isWhiteSpace c = false -> trimEnd (String c s) <> EmptyString.
Proof.
  intros Hc. simpl. destruct (trimEnd s); [rewrite Hc|]; discriminate.
Qed.

(** [trim] gives the empty string exactly on strings of white space. *)
Lemma trim_empty_iff (s : string) :
  trim s = EmptyString <-> blank s = true.
Proof.
  unfold trim. destruct (blank s) eqn:Hb.
  - rewrite (@trimStart_blank s Hb). simpl. tauto.
  - destruct (@trimStart_not_blank s Hb) as (c & rest & -> & Hc).
    split; [|discriminate]. intros H.
    exfalso. exact (@trimEnd_keeps_first c rest Hc H).
Qed.

(** ** The view *)

Section ViewProperties.

Variable E : Type.
Variable Math_random : E -> Q * E.
Variable model_generateContent :
  list Part -> E -> Completion (option GenerateContentResponse) * E.
Variable fetch : string -> E -> Completion Response * E.
Variable FileReader_readAsDataURL : Blob -> E -> option string * E.

Local Abbreviation analyze :=
  (analyzeXrayImage Math_random model_generateContent fetch
     FileReader_readAsDataURL).
Local Abbreviation handleAnalyze :=
  (App.handleAnalyze Math_random model_generateContent fetch
     FileReader_readAsDataURL).
Local Abbreviation handleKeyDown :=
  (App.handleKeyDown Math_random model_generateContent fetch
     FileReader_readAsDataURL).
Local Abbreviation translateAnalysis :=
  (App.translateAnalysis Math_random model_generateContent fetch
     FileReader_readAsDataURL).

(** X14 (what the analysis handler refuses): without an image, or with
    a prompt of white space only, the handler touches nothing outside
    the component and changes nothing but the error line, which names
    the missing image first. *)
Theorem handleAnalyze_refuses (s : App.State) (w : World E) :
  App.imageUrl s = EmptyString \/ blank (App.prompt s) = true ->
  exists msg,
    handleAnalyze s w = (App.setError msg s, w) /\
    (App.imageUrl s = EmptyString ->
     msg = "Please upload an X-ray image first"%string) /\
    (App.imageUrl s <> EmptyString ->
     msg = "Please enter a prompt"%string).
Proof.
  intros Hguard. unfold App.handleAnalyze.
  destruct (String.eqb_spec (App.imageUrl s) EmptyString) as [Hurl|Hurl].
  - eexists. split; [reflexivity|]. split; [reflexivity|contradiction].
  - destruct Hguard as [Hno|Hblank]; [contradiction|].
    apply trim_empty_iff in Hblank. rewrite Hblank. simpl.
    eexists. split; [reflexivity|]. split; [contradiction|reflexivity].
Qed.

(** X15 (an analysis always goes through the image branch): with an
    image and a prompt that is not blank, the handler starts by
    fetching the image URL, whatever the language on display and
    whether or not an analysis is already running or the service was
    found reachable; the Enter key without Shift runs the same handler.
    When it is over the component is not analysing, shows english, and
    has the same image. *)
Theorem handleAnalyze_fetches_image (s : App.State) (w : World E) :
  App.imageUrl s <> EmptyString -> blank (App.prompt s) = false ->
  let run := handleAnalyze s w in
  (exists rest,
     trace (snd run) = trace w ++ Host (Fetch (App.imageUrl s)) :: rest) /\
  handleKeyDown "Enter" false s w = run /\
  App.isAnalyzing (fst run) = false /\
  App.language (fst run) = App.english /\
  App.imageUrl (fst run) = App.imageUrl s.
Proof.
  intros Hurl Hprompt run. subst run.
  assert (Htrim : String.eqb (trim (App.prompt s)) EmptyString = false).
  { destruct (String.eqb_spec (trim (App.prompt s)) EmptyString) as [H|H];
      [|reflexivity].
    apply trim_empty_iff in H. rewrite H in Hprompt. discriminate Hprompt. }
  assert (Hne : String.eqb (App.imageUrl s) EmptyString = false).
  { destruct (String.eqb_spec (App.imageUrl s) EmptyString);
      [contradiction|reflexivity]. }
  unfold App.handleKeyDown. simpl.
  split; [|split; [reflexivity|]].
  - unfold App.handleAnalyze. rewrite Hne, Htrim.
    assert (Hmode : text_only (App.imageUrl s) "english" = false).
    { unfold text_only. rewrite Hne. reflexivity. }
    pose proof (analyze_trace Math_random model_generateContent fetch
                  FileReader_readAsDataURL (App.imageUrl s) (App.prompt s)
                  "english" w) as Htrace.
    destruct (@image_branch_trace E Math_random model_generateContent fetch
                FileReader_readAsDataURL (App.imageUrl s) (App.prompt s)
                "english" w Hmode) as [rest Hrest].
    rewrite Hrest in Htrace.
    destruct (analyze (App.imageUrl s) (App.prompt s) "english" w)
      as [[result|err] w'] eqn:Hrun; simpl in *;
      rewrite Htrace, <- app_assoc; simpl; eexists; reflexivity.
  - unfold App.handleAnalyze. rewrite Hne, Htrim.
    destruct (analyze (App.imageUrl s) (App.prompt s) "english" w)
      as [[result|err] w']; simpl; auto.
Qed.

(** X16 (what the analysis handler shows): on success the answer
    becomes both the analysis on display and the original kept for
    translations, the prompt is emptied and the error line is clear;
    on failure the error line is the message of the [Error] thrown,
    never the fallback sentence, since the function only throws
    [Error] objects; the apology replaces both texts and the prompt is
    kept. *)
Theorem handleAnalyze_outcome (s : App.State) (w : World E) :
  App.imageUrl s <> EmptyString -> blank (App.prompt s) = false ->
  let s' := fst (handleAnalyze s w) in
  match fst (analyze (App.imageUrl s) (App.prompt s) "english" w) with
  | Normal result =>
      App.analysis s' = result /\ App.originalAnalysis s' = result /\
      App.prompt s' = EmptyString /\ App.error s' = EmptyString
  | Throw v =>
      exists msg,
        v = ErrorObject (new_Error msg) /\ App.error s' = msg /\
        App.analysis s' = App.apology /\
        App.originalAnalysis s' = App.apology /\
        App.prompt s' = App.prompt s
  end.
Proof.
  intros Hurl Hprompt s'. subst s'.
  assert (Htrim : String.eqb (trim (App.prompt s)) EmptyString = false).
  { destruct (String.eqb_spec (trim (App.prompt s)) EmptyString) as [H|H];
      [|reflexivity].
    apply trim_empty_iff in H. rewrite H in Hprompt. discriminate Hprompt. }
  assert (Hne : String.eqb (App.imageUrl s) EmptyString = false).
  { destruct (String.eqb_spec (App.imageUrl s) EmptyString);
      [contradiction|reflexivity]. }
  unfold App.handleAnalyze. rewrite Hne, Htrim.
  pose proof (@analyze_throws_Error E Math_random model_generateContent fetch
                FileReader_readAsDataURL (App.imageUrl s) (App.prompt s)
                "english" w) as Hthrown.
  destruct (analyze (App.imageUrl s) (App.prompt s) "english" w)
    as [[result|err] w']; simpl in *.
  - auto.
  - destruct (Hthrown err eq_refl) as [msg ->].
    exists msg. simpl. auto.
Qed.

(** X17 (translating back is local): whatever a translation did, a
    translation to english after it calls nothing outside the
    component and leaves the original analysis as it was before both;
    when the first one did change the language, the text on display is
    the original again, in english. *)
Theorem translate_back_restores (target : App.Language) (s : App.State)
  (w : World E) :
  let first := translateAnalysis target s w in
  let second := translateAnalysis App.english (fst first) (snd first) in
  snd second = snd first /\
  App.originalAnalysis (fst second) = App.originalAnalysis s /\
  (App.language (fst first) <> App.english ->
   App.originalAnalysis s <> EmptyString ->
   App.analysis (fst second) = App.originalAnalysis s /\
   App.language (fst second) = App.english /\
   App.isTranslating (fst second) = false).
Proof.
  intros first second.
  assert (Hkeep : App.originalAnalysis (fst first) = App.originalAnalysis s).
  { subst first. unfold App.translateAnalysis.
    destruct (App.Language_eqb target (App.language s)
              || String.eqb (App.originalAnalysis s) EmptyString);
      [reflexivity|].
    destruct target; simpl; [reflexivity| |];
      destruct (analyze _ _ _ w) as [[r|err] w']; reflexivity. }
  subst second. unfold App.translateAnalysis at 1 2 3 4 5.
  rewrite Hkeep.
  destruct (App.language (fst first)) eqn:Hlang; simpl.
  - split; [reflexivity|]. split; [exact Hkeep|]. intros H. contradiction.
  - destruct (String.eqb_spec (App.originalAnalysis s) EmptyString) as [He|He];
      simpl.
    + split; [reflexivity|]. split; [exact Hkeep|]. intros _ H. contradiction.
    + rewrite Hkeep. auto.
  - destruct (String.eqb_spec (App.originalAnalysis s) EmptyString) as [He|He];
      simpl.
    + split; [reflexivity|]. split; [exact Hkeep|]. intros _ H. contradiction.
    + rewrite Hkeep. auto.
Qed.

(** X18 (a translation of an analysis sends the image again): a
    translation to hindi or marathi that is not refused runs the
    orchestrator on the image URL of the component.  With an image
    loaded it starts by fetching that image, so the request is the
    image-grounded one; only with no image (the greeting) it is the
    text-only request, which carries the translation prompt and
    fetches nothing. *)
Theorem translate_uses_image_branch (target : App.Language) (s : App.State)
  (w : World E) :
  target <> App.english -> target <> App.language s ->
  App.originalAnalysis s <> EmptyString ->
  let t' := trace (snd (translateAnalysis target s w)) in
  (App.imageUrl s <> EmptyString ->
   exists rest, t' = trace w ++ Host (Fetch (App.imageUrl s)) :: rest) /\
  (App.imageUrl s = EmptyString ->
   exists rest,
     t' = trace w
          ++ Attempt
          :: Host (GenerateContent
                     [TextPart
                        (text_only_instruction
                           (App.translation_prompt target (App.originalAnalysis s))
                           (App.Language_string target))])
          :: rest /\
     fetched rest = []).
Proof.
  intros Htarget Hother Horig t'. subst t'.
  assert (Hguard : App.Language_eqb target (App.language s)
                   || String.eqb (App.originalAnalysis s) EmptyString = false).
  { destruct (String.eqb_spec (App.originalAnalysis s) EmptyString);
      [contradiction|].
    rewrite orb_false_r.
    destruct target, (App.language s); try reflexivity; contradiction. }
  assert (Hrun : snd (translateAnalysis target s w)
                 = snd (analyze (App.imageUrl s)
                          (App.translation_prompt target (App.originalAnalysis s))
                          (App.Language_string target) w)).
  { unfold App.translateAnalysis. rewrite Hguard.
    destruct target; [contradiction| |];
      destruct (analyze _ _ _ w) as [[r|err] w']; reflexivity. }
  rewrite Hrun, analyze_trace.
  split.
  - intros Hurl.
    assert (Hmode : text_only (App.imageUrl s) (App.Language_string target)
                    = false).
    { unfold text_only.
      destruct (String.eqb_spec (App.imageUrl s) EmptyString);
        [contradiction|reflexivity]. }
    destruct (@image_branch_trace E Math_random model_generateContent fetch
                FileReader_readAsDataURL (App.imageUrl s)
                (App.translation_prompt target (App.originalAnalysis s))
                (App.Language_string target) w Hmode) as [rest ->].
    rewrite <- app_assoc. simpl. eexists. reflexivity.
  - intros Hurl. rewrite Hurl.
    assert (Hmode : text_only EmptyString (App.Language_string target) = true).
    { destruct target; [contradiction| |]; reflexivity. }
    unfold analyze_body. rewrite Hmode.
    match goal with
    | |- context [retryWithBackoff _ (generateContent _ ?parts) ?m ?b ?w1] =>
        destruct (@retry_generate_trace E Math_random model_generateContent
                    parts m b w1 eq_refl) as (rest & Hrest & Hf & _)
    end.
    rewrite Hrest, <- app_assoc. simpl.
    eexists. split; [reflexivity|].
    rewrite fetched_app, Hf. destruct (fst _); reflexivity.
Qed.

(** X19 (what the connection check reports): the component shows
    connected, with the greeting as analysis and as original, as soon
    as the probe call does not throw, a call that came back without a
    response object included: the boolean of the probe is not looked
    at.  When the call throws it shows the failure with its own
    sentence.  Either way the model was called once. *)
Theorem checkConnection_status (s : App.State) (w : World E) :
  let answer :=
    model_generateContent [TextPart "Hello, are you working?"] (env w) in
  let run := App.checkConnection model_generateContent s w in
  model_calls (trace (snd run)) = model_calls (trace w) + 1 /\
  match fst answer with
  | Normal _ =>
      App.apiStatus (fst run) = App.connected /\
      App.analysis (fst run) = App.greeting /\
      App.originalAnalysis (fst run) = App.greeting /\
      App.error (fst run) = App.error s
  | Throw _ =>
      App.apiStatus (fst run) = App.failed /\
      App.error (fst run)
        = "Failed to connect to the analysis service. Please try again later."%string /\
      App.analysis (fst run) = App.analysis s
  end.
Proof.
  intros answer run. subst answer run.
  unfold App.checkConnection, checkApiConnection, try_catch, perform, probe,
    connection_failed, bind, emit, throw.
  destruct (model_generateContent [TextPart "Hello, are you working?"] (env w))
    as [[[response|]|v] e']; simpl;
    rewrite ?model_calls_app; simpl; rewrite <- ?app_assoc;
    rewrite ?model_calls_app; simpl; auto.
Qed.

End ViewProperties.

(** ** The further properties on the scripted host *)

Lemma retry_zero_budget_witness :
  (0 <= 0)%Z /\
  retryWithBackoff Scenario.Math_random Scenario.ping 0 2000 (Scenario.start [])
    = (Throw (ErrorObject (new_Error RetriesExhausted_message)),
       Scenario.start []).
Proof.
  assert (H : (0 <= 0)%Z) by lia.
  split; [exact H|].
  exact (@retry_zero_budget _ Scenario.Math_random _ Scenario.ping 0 2000%Q
           (Scenario.start []) H).
Defined.

(** One overloaded answer, then a rejected key. *)
Lemma permanent_after_transient_witness :
  exists w1 w2,
    (Z.of_nat 1 < 5)%Z /\
    transient_failures Scenario.Math_random Scenario.ping 5 2000 1 0
      (Scenario.start [Throw Scenario.overloaded; Throw Scenario.bad_request])
      w1 /\
    attempt Scenario.ping w1 = (Throw Scenario.bad_request, w2) /\
    is_transient Scenario.bad_request = false /\
    retryWithBackoff Scenario.Math_random Scenario.ping 5 2000
      (Scenario.start [Throw Scenario.overloaded; Throw Scenario.bad_request])
      = (Throw Scenario.bad_request, w2) /\
    attempts (trace w2) = 2 /\
    length (delays (trace w2)) = 1.
Proof.
  do 2 eexists.
  assert (Hk : (Z.of_nat 1 < 5)%Z) by lia.
  split; [exact Hk|].
  match goal with |- ?A /\ _ => assert (Hfail : A) by run_failures end.
  split; [exact Hfail|].
  match goal with |- ?A /\ _ => assert (Hatt : A) by (cbv; reflexivity) end.
  split; [exact Hatt|].
  assert (Hperm : is_transient Scenario.bad_request = false) by reflexivity.
  split; [exact Hperm|].
  exact (permanent_after_transient Hk Hfail Hatt Hperm).
Defined.

Lemma retry_never_throws_transient_witness :
  fst (retryWithBackoff Scenario.Math_random Scenario.ping 5 2000
         (Scenario.start []))
    = Throw (ErrorObject (new_Error RetriesExhausted_message)) /\
  is_transient (ErrorObject (new_Error RetriesExhausted_message)) = false.
Proof.
  assert (H : fst (retryWithBackoff Scenario.Math_random Scenario.ping 5 2000
                     (Scenario.start []))
              = Throw (ErrorObject (new_Error RetriesExhausted_message)))
    by (vm_compute; reflexivity).
  split; [exact H|].
  exact (@retry_never_throws_transient _ Scenario.Math_random _ Scenario.ping
           5 2000%Q (Scenario.start []) _ H).
Defined.

Lemma total_wait_bounded_witness :
  (forall e, (0 <= fst (Scenario.Math_random e))%Q /\
             (fst (Scenario.Math_random e) < 1)%Q) /\
  exists qs,
    delays (trace (snd (retryWithBackoff Scenario.Math_random Scenario.ping
                          default_maxRetries default_initialDelay
                          (Scenario.start []))))
      = map Finite qs /\
    (total_wait qs <= 67000)%Q.
Proof.
  assert (Hrange : forall e, (0 <= fst (Scenario.Math_random e))%Q /\
                             (fst (Scenario.Math_random e) < 1)%Q).
  { intros e. unfold Qle, Qlt. simpl. lia. }
  split; [exact Hrange|].
  destruct (@total_wait_bounded _ Scenario.Math_random _ Scenario.ping Hrange
              (Scenario.start []))
    as (_ & qs & Hds & Hsum).
  exists qs. split; [exact Hds | exact Hsum].
Defined.

Lemma blobToBase64_second_comma_witness :
  Scenario.FileReader_readAsDataURL ViewScenario.named_png []
    = (Some ("data:image/png;name=a"
             ++ String "," ("b;base64" ++ String "," "iVBORw=="))%string, []) /\
  free_of "," "data:image/png;name=a" = true /\
  free_of "," "b;base64" = true /\
  "b;base64"%string <> EmptyString /\
  blobToBase64 Scenario.FileReader_readAsDataURL ViewScenario.named_png
    (Scenario.start [])
    = (Normal "b;base64"%string,
       {| env := []; trace := [Host (ReadAsDataURL ViewScenario.named_png)] |}).
Proof.
  assert (Hread : Scenario.FileReader_readAsDataURL ViewScenario.named_png []
            = (Some ("data:image/png;name=a"
                     ++ String "," ("b;base64" ++ String "," "iVBORw=="))%string,
               [])) by reflexivity.
  assert (Hpre : free_of "," "data:image/png;name=a" = true) by reflexivity.
  assert (Hmid : free_of "," "b;base64" = true) by reflexivity.
  assert (Hne : "b;base64"%string <> EmptyString) by discriminate.
  repeat (split; [assumption|]).
  exact (@blobToBase64_second_comma _ Scenario.FileReader_readAsDataURL
           ViewScenario.named_png (Scenario.start []) _ _ _ _
           Hread Hpre Hmid Hne).
Defined.

(** The proxy in front of the image is down: the caller is told that
    the service was tried several times, and the model was not called. *)
Lemma transient_only_before_model_witness :
  exists v w1,
    analyze_body Scenario.Math_random Scenario.model_generateContent
      ViewScenario.proxy_down Scenario.FileReader_readAsDataURL
      "https://example.org/xray.png" "Any fracture?" "english"
      (Scenario.start []) = (Throw v, w1) /\
    is_transient v = true /\
    model_calls (trace w1) = 0 /\
    fst (analyzeXrayImage Scenario.Math_random Scenario.model_generateContent
           ViewScenario.proxy_down Scenario.FileReader_readAsDataURL
           "https://example.org/xray.png" "Any fracture?" "english"
           (Scenario.start []))
      = Throw (ErrorObject (new_Error ServiceUnavailable_message)).
Proof.
  do 2 eexists.
  match goal with |- ?A /\ _ => assert (Hbody : A) by (cbv; reflexivity) end.
  split; [exact Hbody|].
  match goal with |- ?A /\ _ => assert (Htr : A) by reflexivity end.
  split; [exact Htr|].
  destruct (transient_only_before_model _ _ _ _ _ _ _ _ Hbody Htr)
    as (_ & Hcalls & _ & Hrun).
  split; [exact Hcalls|]. rewrite Hrun. reflexivity.
Defined.

Lemma empty_response_not_retried_witness :
  (0 < 5)%Z /\
  Scenario.model_generateContent [TextPart "ping"] (env (Scenario.start [Normal None]))
    = (Normal None, []) /\
  retryWithBackoff Scenario.Math_random Scenario.ping 5 2000
    (Scenario.start [Normal None])
    = (Throw (ErrorObject (new_Error "No response from Gemini API")),
       {| env := [];
          trace := [Attempt; Host (GenerateContent [TextPart "ping"])] |}).
Proof.
  assert (Hm : (0 < 5)%Z) by lia.
  assert (Hanswer : Scenario.model_generateContent [TextPart "ping"]
                      (env (Scenario.start [Normal None]))
                    = (Normal None, [])) by reflexivity.
  split; [exact Hm|]. split; [exact Hanswer|].
  destruct (@empty_response_not_retried _ Scenario.Math_random
              Scenario.model_generateContent Scenario.fetch
              Scenario.FileReader_readAsDataURL [TextPart "ping"] 5 2000%Q
              (Scenario.start [Normal None]) [] Hm Hanswer) as [Hrun _].
  exact Hrun.
Defined.

Lemma model_called_only_after_encoding_witness :
  let w := Scenario.start [Scenario.answer "Normal chest."] in
  text_only "https://example.org/xray.png" "english" = false /\
  model_calls (trace (snd (Scenario.analyze "https://example.org/xray.png"
                             "Any fracture?" "english" w)))
    <> model_calls (trace w) /\
  exists response e1 imageBlob dataUrl e2 base64Image,
    Scenario.fetch "https://example.org/xray.png" (env w) = (Normal response, e1) /\
    ok response = true /\
    blob response = Normal imageBlob /\
    Scenario.FileReader_readAsDataURL imageBlob e1 = (Some dataUrl, e2) /\
    onloadend dataUrl = Normal base64Image.
Proof.
  intros w.
  assert (Hmode : text_only "https://example.org/xray.png" "english" = false)
    by reflexivity.
  assert (Hcalls : model_calls (trace (snd (Scenario.analyze
                      "https://example.org/xray.png" "Any fracture?" "english" w)))
                   <> model_calls (trace w))
    by (vm_compute; discriminate).
  split; [exact Hmode|]. split; [exact Hcalls|].
  exact (@model_called_only_after_encoding _ Scenario.Math_random
           Scenario.model_generateContent Scenario.fetch
           Scenario.FileReader_readAsDataURL _ _ _ w Hmode Hcalls).
Defined.

Lemma analyze_returns_model_text_witness :
  exists w1,
    "hindi"%string <> "english"%string /\
    2 < 5 /\
    transient_failures Scenario.Math_random
      (generateContent Scenario.model_generateContent
         [TextPart (text_only_instruction "Translate." "hindi")])
      default_maxRetries default_initialDelay 2 0
      (Scenario.start Scenario.flaky) w1 /\
    Scenario.model_generateContent
      [TextPart (text_only_instruction "Translate." "hindi")] (env w1)
      = (Normal (Some {| text := Normal "No fracture."%string |}), []) /\
    fst (Scenario.analyze EmptyString "Translate." "hindi"
           (Scenario.start Scenario.flaky))
      = Normal "No fracture."%string.
Proof.
  eexists.
  assert (Hlang : "hindi"%string <> "english"%string) by discriminate.
  assert (Hk : 2 < 5) by lia.
  split; [exact Hlang|]. split; [exact Hk|].
  match goal with |- ?A /\ _ => assert (Hfail : A) by run_failures end.
  split; [exact Hfail|].
  match goal with |- ?A /\ _ => assert (Hanswer : A) by reflexivity end.
  split; [exact Hanswer|].
  unfold Scenario.analyze.
  rewrite (@analyze_returns_model_text _ Scenario.Math_random
             Scenario.model_generateContent Scenario.fetch
             Scenario.FileReader_readAsDataURL "Translate." "hindi"
             "No fracture." 2 _ _ [] Hlang Hk Hfail Hanswer).
  reflexivity.
Defined.

Lemma handleAnalyze_refuses_witness :
  (App.imageUrl ViewScenario.mounted = EmptyString \/
   blank (App.prompt ViewScenario.mounted) = true) /\
  ViewScenario.handleAnalyze ViewScenario.mounted (Scenario.start [])
    = (App.setError "Please upload an X-ray image first" ViewScenario.mounted,
       Scenario.start []).
Proof.
  assert (H : App.imageUrl ViewScenario.mounted = EmptyString \/
              blank (App.prompt ViewScenario.mounted) = true)
    by (left; reflexivity).
  split; [exact H|].
  destruct (@handleAnalyze_refuses _ Scenario.Math_random
              Scenario.model_generateContent Scenario.fetch
              Scenario.FileReader_readAsDataURL ViewScenario.mounted
              (Scenario.start []) H) as (msg & Hrun & Hmsg & _).
  unfold ViewScenario.handleAnalyze. rewrite Hrun, (Hmsg eq_refl). reflexivity.
Defined.

(** An analysis is running already; Enter starts another one. *)
Lemma handleAnalyze_fetches_image_witness :
  let w := Scenario.start [Scenario.answer "Normal chest."] in
  App.imageUrl ViewScenario.analysed <> EmptyString /\
  blank (App.prompt ViewScenario.analysed) = false /\
  App.isAnalyzing ViewScenario.analysed = true /\
  exists rest,
    trace (snd (ViewScenario.handleAnalyze ViewScenario.analysed w))
      = Host (Fetch "https://example.org/xray.png") :: rest.
Proof.
  intros w.
  assert (Hurl : App.imageUrl ViewScenario.analysed <> EmptyString)
    by discriminate.
  assert (Hprompt : blank (App.prompt ViewScenario.analysed) = false)
    by reflexivity.
  split; [exact Hurl|]. split; [exact Hprompt|]. split; [reflexivity|].
  destruct (@handleAnalyze_fetches_image _ Scenario.Math_random
              Scenario.model_generateContent Scenario.fetch
              Scenario.FileReader_readAsDataURL ViewScenario.analysed w
              Hurl Hprompt) as (Hfetch & _).
  exact Hfetch.
Defined.

Lemma handleAnalyze_outcome_witness :
  let w := Scenario.start [Scenario.answer "Normal chest."] in
  App.imageUrl ViewScenario.analysed <> EmptyString /\
  blank (App.prompt ViewScenario.analysed) = false /\
  App.analysis (fst (ViewScenario.handleAnalyze ViewScenario.analysed w))
    = "Normal chest."%string /\
  App.prompt (fst (ViewScenario.handleAnalyze ViewScenario.analysed w))
    = EmptyString.
Proof.
  intros w.
  assert (Hurl : App.imageUrl ViewScenario.analysed <> EmptyString)
    by discriminate.
  assert (Hprompt : blank (App.prompt ViewScenario.analysed) = false)
    by reflexivity.
  split; [exact Hurl|]. split; [exact Hprompt|].
  pose proof (@handleAnalyze_outcome _ Scenario.Math_random
                Scenario.model_generateContent Scenario.fetch
                Scenario.FileReader_readAsDataURL ViewScenario.analysed w
                Hurl Hprompt) as Hout.
  assert (Hrun : fst (analyzeXrayImage Scenario.Math_random
                        Scenario.model_generateContent Scenario.fetch
                        Scenario.FileReader_readAsDataURL
                        (App.imageUrl ViewScenario.analysed)
                        (App.prompt ViewScenario.analysed) "english" w)
                 = Normal "Normal chest."%string)
    by (vm_compute; reflexivity).
  cbv zeta in Hout. rewrite Hrun in Hout.
  destruct Hout as (Ha & _ & Hp & _).
  split; [exact Ha|exact Hp].
Defined.

(** Translating the analysis of an image fetches the image again. *)
Lemma translate_uses_image_branch_witness :
  let w := Scenario.start [Scenario.answer "Koi fracture nahin."] in
  App.hindi <> App.english /\
  App.hindi <> App.language ViewScenario.analysed /\
  App.originalAnalysis ViewScenario.analysed <> EmptyString /\
  exists rest,
    trace (snd (ViewScenario.translateAnalysis App.hindi ViewScenario.analysed w))
      = Host (Fetch "https://example.org/xray.png") :: rest.
Proof.
  intros w.
  assert (H1 : App.hindi <> App.english) by discriminate.
  assert (H2 : App.hindi <> App.language ViewScenario.analysed) by discriminate.
  assert (H3 : App.originalAnalysis ViewScenario.analysed <> EmptyString)
    by discriminate.
  repeat (split; [assumption|]).
  destruct (@translate_uses_image_branch _ Scenario.Math_random
              Scenario.model_generateContent Scenario.fetch
              Scenario.FileReader_readAsDataURL App.hindi ViewScenario.analysed
              w H1 H2 H3) as [Himage _].
  apply Himage. discriminate.
Defined.
